(** * Flatbrain: directory walk, name flattening and concatenation

    A shallow embedding of [bin/index.js] (flatbrain 2.1.0): the recursive
    directory walk with its exclusion rules, the flattened file names with
    the optional [.txt] retargeting, and the concatenated artifact.

    Conventions of the model.
    - JavaScript strings are [string]; [Set<string>] is [gset string];
      the flattened output directory is a [gmap] from destination path to
      content.
    - A JavaScript exception is [Err message]; a command ends in an
      [outcome].
    - The directory tree below [rootDir] is a [node]; [fs.readdirSync]
      with [withFileTypes] is the listing stored in a [Dir] node, given in
      the order the operating system returns it.
    - [fs.readFileSync(path, 'utf8')] is a function from the path to its
      outcome; [fs.copyFileSync] reads through the same function.
    - Node's [path] module is modelled for POSIX ([path.sep] is [/]). *)

From Stdlib Require Import String Ascii List Bool Arith Lia.
From stdpp Require Import base gmap sets strings list.

Open Scope string_scope.
Open Scope list_scope.

(** ** Exceptions *)

(** The outcome of a call that may throw: the value, or the [message] of
    the exception. *)
Inductive result (A : Type) : Type :=
| Ok (value : A)
| Err (message : string).

Arguments Ok {A} value.
Arguments Err {A} message.

Definition bind {A B : Type} (m : result A) (k : A -> result B) : result B :=
  match m with
  | Ok a => k a
  | Err e => Err e
  end.

Notation "'let*' x ':=' m 'in' k" := (bind m (fun x => k))
  (at level 10, x name, m at level 100, k at level 200).

(** The outcome of a whole command: it finishes, it calls
    [process.exit(code)] after a diagnostic, or an exception escapes. *)
Inductive outcome (A : Type) : Type :=
| Done (value : A)
| Exited (code : nat) (stderr : string)
| Uncaught (message : string).

Arguments Done {A} value.
Arguments Exited {A} code stderr.
Arguments Uncaught {A} message.

(** ** JavaScript string primitives used by the program *)

Module JS.

(** [s.split(c)] for a one-character separator [c]. *)
Fixpoint split (c : ascii) (s : string) : list string :=
  match s with
  | EmptyString => [EmptyString]
  | String a s' =>
      if Ascii.eqb a c then EmptyString :: split c s'
      else match split c s' with
           | [] => [String a EmptyString]
           | w :: ws => String a w :: ws
           end
  end.

(** [s.replace(new RegExp(c, 'g'), d)] for a regular expression that
    matches exactly the character [c]. *)
Fixpoint replace_all (c d : ascii) (s : string) : string :=
  match s with
  | EmptyString => EmptyString
  | String a s' => String (if Ascii.eqb a c then d else a) (replace_all c d s')
  end.

(** [s.endsWith(c)] for a one-character string [c]. *)
Fixpoint endsWith (s : string) (c : ascii) : bool :=
  match s with
  | EmptyString => false
  | String a EmptyString => Ascii.eqb a c
  | String _ s' => endsWith s' c
  end.

(** [s.slice(0, -n)]: a negative end counts from the end of the string,
    but [-0] is [0], so [s.slice(0, -0)] is the empty string. *)
Definition slice_0_neg (s : string) (n : nat) : string :=
  match n with
  | O => EmptyString
  | _ => String.substring 0 (String.length s - n) s
  end.

(** [s.slice(i, j)] for [0 <= i <= j <= s.length]. *)
Definition slice (s : string) (i j : nat) : string :=
  String.substring i (j - i) s.

End JS.

(** ** Node's [path] module on POSIX *)

Module Path.

Definition sep : ascii := "/"%char.
Definition sep_string : string := String sep EmptyString.

(** The non-empty segments of a path. *)
Definition segments (p : string) : list string :=
  List.filter (fun s => negb (String.eqb s EmptyString)) (JS.split sep p).

Definition isAbsolute (p : string) : bool :=
  match p with
  | String a _ => Ascii.eqb a sep
  | EmptyString => false
  end.

(** The absolute path with the given segments. *)
Definition absolute (segs : list string) : string :=
  sep_string +:+ String.concat sep_string segs.

(** [path.join(dir, name)]: the two parts are joined with a separator and
    the result is normalised, which collapses repeated separators.  The
    segments [.] and [..] are not interpreted: no path of the program has
    one (see [name_ok]). *)
Definition join (dir name : string) : string :=
  let segs := segments (dir +:+ sep_string +:+ name) in
  if isAbsolute dir then absolute segs
  else match segs with
       | [] => "."
       | _ => String.concat sep_string segs
       end.

Fixpoint strip_common (a b : list string) : list string * list string :=
  match a, b with
  | x :: a', y :: b' => if String.eqb x y then strip_common a' b' else (a, b)
  | _, _ => (a, b)
  end.

(** [path.relative(from, to)] for two absolute paths: the common leading
    segments are dropped, every remaining segment of [from] becomes [..],
    and the remaining segments of [to] follow. *)
Definition relative (from to : string) : string :=
  let '(up, down) := strip_common (segments from) (segments to) in
  String.concat sep_string (List.map (fun _ => "..") up ++ down).

(** [path.extname(p)], following Node's scan from the end of the path:
    [startDot] is the last dot of the last portion, [end_] the end of that
    portion, and [preDotState] records whether only dots precede it. *)
Record ext_state : Type := mk_ext_state {
  startDot : option nat;
  startPart : nat;
  end_ : option nat;
  matchedSlash : bool;
  preDotState : Z
}.

Definition ext_init : ext_state :=
  mk_ext_state None 0 None true 0%Z.

(** One iteration of the scan at index [i]; the boolean is [true] when the
    loop breaks. *)
Definition ext_step (i : nat) (code : ascii) (st : ext_state) : ext_state * bool :=
  if Ascii.eqb code sep then
    if negb (matchedSlash st)
    then (mk_ext_state (startDot st) (i + 1) (end_ st) (matchedSlash st) (preDotState st), true)
    else (st, false)
  else
    let st1 :=
      match end_ st with
      | None => mk_ext_state (startDot st) (startPart st) (Some (i + 1)) false (preDotState st)
      | Some _ => st
      end in
    if Ascii.eqb code "."%char then
      match startDot st1 with
      | None =>
          (mk_ext_state (Some i) (startPart st1) (end_ st1) (matchedSlash st1) (preDotState st1), false)
      | Some _ =>
          if negb (Z.eqb (preDotState st1) 1)
          then (mk_ext_state (startDot st1) (startPart st1) (end_ st1) (matchedSlash st1) 1%Z, false)
          else (st1, false)
      end
    else
      match startDot st1 with
      | Some _ =>
          (mk_ext_state (startDot st1) (startPart st1) (end_ st1) (matchedSlash st1) (-1)%Z, false)
      | None => (st1, false)
      end.

(** The loop [for (i = path.length - 1; i >= 0; --i)] over the characters
    paired with their indices, last character first. *)
Fixpoint ext_scan (chars : list (nat * ascii)) (st : ext_state) : ext_state :=
  match chars with
  | [] => st
  | (i, code) :: rest =>
      let '(st', stop) := ext_step i code st in
      if stop then st' else ext_scan rest st'
  end.

Fixpoint indexed (i : nat) (s : string) : list (nat * ascii) :=
  match s with
  | EmptyString => []
  | String a s' => (i, a) :: indexed (S i) s'
  end.

Definition extname (p : string) : string :=
  let st := ext_scan (List.rev (indexed 0 p)) ext_init in
  match startDot st, end_ st with
  | Some sd, Some e =>
      if Z.eqb (preDotState st) 0
         || (Z.eqb (preDotState st) 1 && Nat.eqb sd (e - 1) && Nat.eqb sd (startPart st + 1))
      then EmptyString
      else JS.slice p sd e
  | _, _ => EmptyString
  end.

End Path.

(** ** The file system under the root directory *)

(** What [fs.readdirSync(dir, { withFileTypes: true })] finds at a name.
    [Dirent.isFile()] holds of [File] only, [Dirent.isDirectory()] of
    [Dir] and [Unlistable] only; a symbolic link (whatever it points to)
    and the special files (FIFO, socket, device) satisfy neither. *)
#[local] Unset Elimination Schemes.
Inductive node : Type :=
| File
| Dir (entries : list (string * node))
| Unlistable (message : string)
| Symlink
| Special.
#[local] Set Elimination Schemes.

Definition isDirectory (n : node) : bool :=
  match n with
  | Dir _ | Unlistable _ => true
  | _ => false
  end.

Definition isFile (n : node) : bool :=
  match n with
  | File => true
  | _ => false
  end.

Definition isSymbolicLink (n : node) : bool :=
  match n with
  | Symlink => true
  | _ => false
  end.

(** [fs.readdirSync]: the listing, or the exception of the system call. *)
Definition readdirSync (n : node) : result (list (string * node)) :=
  match n with
  | Dir entries => Ok entries
  | Unlistable message => Err message
  | _ => Err "ENOTDIR: not a directory, scandir"
  end.

(** [set.has(x)] *)
Definition has (set : gset string) (x : string) : bool :=
  bool_decide (x ∈ set).

(** The [ignore] package is not part of the repository: an instance is
    taken as its [ignores] method, a function of the path that answers or
    throws (the package rejects paths it does not regard as relative). *)
Definition Ignore : Type := string -> result bool.

(** The state of the world a command runs in: what is at [rootDir] (if
    anything), and the answers of [fs.existsSync] and of
    [fs.readFileSync(path, 'utf8')] for the paths the command asks about. *)
Record filesystem : Type := mk_filesystem {
  root : option node;
  existsSync : string -> bool;
  readFileSync : string -> result string
}.

(** ** [walkDirectory] *)

(** The accumulator [fileList] is one array shared by all recursive calls:
    it is threaded through the calls, and [push] appends at the end. *)
Fixpoint walkDirectory (dir : node) (dirPath : string) (fileList : list string)
    (rootDir : string) (ig : Ignore) (excludeDirs excludeFiles : gset string)
    {struct dir} : result (list string) :=
  match dir with
  | Dir entries =>
      (fix loop (entries : list (string * node)) (fileList : list string)
         : result (list string) :=
         match entries with
         | [] => Ok fileList
         | (name, entry) :: rest =>
             if String.eqb name "flatbrain" then loop rest fileList
             else if String.eqb name ".git" then loop rest fileList
             else
               let fullPath := Path.join dirPath name in
               let relativePath := Path.relative rootDir fullPath in
               if isDirectory entry && has excludeDirs name then loop rest fileList
               else if isFile entry && has excludeFiles name then loop rest fileList
               else
                 let* ignored := ig relativePath in
                 if (ignored : bool) then loop rest fileList
                 else if isDirectory entry then
                   let* fileList :=
                     walkDirectory entry fullPath fileList rootDir ig excludeDirs excludeFiles in
                   loop rest fileList
                 else loop rest (fileList ++ [fullPath])
         end) entries fileList
  | Unlistable message => Err message
  | _ => Err "ENOTDIR: not a directory, scandir"
  end.

(** The loop of [walkDirectory] over the listing of [dirPath]. *)
Fixpoint walkEntries (entries : list (string * node)) (dirPath : string)
    (fileList : list string) (rootDir : string) (ig : Ignore)
    (excludeDirs excludeFiles : gset string) : result (list string) :=
  match entries with
  | [] => Ok fileList
  | (name, entry) :: rest =>
      if String.eqb name "flatbrain"
      then walkEntries rest dirPath fileList rootDir ig excludeDirs excludeFiles
      else if String.eqb name ".git"
      then walkEntries rest dirPath fileList rootDir ig excludeDirs excludeFiles
      else
        let fullPath := Path.join dirPath name in
        let relativePath := Path.relative rootDir fullPath in
        if isDirectory entry && has excludeDirs name
        then walkEntries rest dirPath fileList rootDir ig excludeDirs excludeFiles
        else if isFile entry && has excludeFiles name
        then walkEntries rest dirPath fileList rootDir ig excludeDirs excludeFiles
        else
          let* ignored := ig relativePath in
          if (ignored : bool)
          then walkEntries rest dirPath fileList rootDir ig excludeDirs excludeFiles
          else if isDirectory entry then
            let* fileList :=
              walkDirectory entry fullPath fileList rootDir ig excludeDirs excludeFiles in
            walkEntries rest dirPath fileList rootDir ig excludeDirs excludeFiles
          else
            walkEntries rest dirPath (fileList ++ [fullPath]) rootDir ig
              excludeDirs excludeFiles
  end.

(** ** [getFlattenedFileName] *)

Definition getFlattenedFileName (filePath rootDir : string) : string :=
  let relative := Path.relative rootDir filePath in
  JS.replace_all Path.sep "^"%char relative.

(** ** [loadGitignore] *)

Definition newline : ascii := "010"%char.
Definition nl : string := String newline EmptyString.

(** [ignore_add lines] stands for [ignore().add(lines)] of the [ignore]
    package. *)
Definition loadGitignore (ignore_add : list string -> Ignore) (fs : filesystem)
    (rootDir : string) : result Ignore :=
  let gitignorePath := Path.join rootDir ".gitignore" in
  if existsSync fs gitignorePath then
    let* gitignoreContents := readFileSync fs gitignorePath in
    Ok (ignore_add (JS.split newline gitignoreContents))
  else Ok (ignore_add []).

(** ** [flattenProject] *)

(** The name a walked file gets in [flatbrain/flattened]: the body of the
    copy loop up to [destPath]. *)
Definition flattenedFileName (toTxtExtensions : gset string)
    (filePath rootDir : string) : string :=
  let flattenedFileName := getFlattenedFileName filePath rootDir in
  let ext := Path.extname flattenedFileName in
  if has toTxtExtensions ext
  then JS.slice_0_neg flattenedFileName (String.length ext) +:+ ".txt"
  else flattenedFileName.

(** The copy loop.  The state is the content of the output directory, a
    map from destination path to file content: [fs.copyFileSync]
    overwrites an existing destination.  An exception leaves the loop with
    the copies made so far in place. *)
Fixpoint copyFiles (fs : filesystem) (filePaths : list string)
    (rootDir flattenedDir : string) (toTxtExtensions : gset string)
    (written : gmap string string) : gmap string string * result unit :=
  match filePaths with
  | [] => (written, Ok tt)
  | filePath :: rest =>
      let destPath :=
        Path.join flattenedDir (flattenedFileName toTxtExtensions filePath rootDir) in
      match readFileSync fs filePath with
      | Ok content =>
          copyFiles fs rest rootDir flattenedDir toTxtExtensions
            (<[destPath := content]> written)
      | Err message => (written, Err message)
      end
  end.

Definition dquote : string := String "034"%char EmptyString.

(** [rootDir] is the directory argument after [path.resolve] (or
    [process.cwd()]).  The preparation of [flatbrain/flattened] is left
    out: the walk skips every entry named [flatbrain], and the directory
    is empty when the copy loop starts.  The result pairs the files the
    run wrote there with how the run ended. *)
Definition flattenProject (ignore_add : list string -> Ignore) (fs : filesystem)
    (rootDir : string) (excludeDirs excludeFiles toTxtExtensions : gset string)
  : gmap string string * outcome unit :=
  match root fs with
  | None =>
      (∅, Exited 1 ("Directory " +:+ dquote +:+ rootDir +:+ dquote +:+ " does not exist."))
  | Some dir =>
      if negb (isDirectory dir)
      then (∅, Exited 1 ("Path " +:+ dquote +:+ rootDir +:+ dquote +:+ " is not a directory."))
      else
        match loadGitignore ignore_add fs rootDir with
        | Err message => (∅, Uncaught message)
        | Ok ig =>
            let flatbrainDir := Path.join rootDir "flatbrain" in
            let flattenedDir := Path.join flatbrainDir "flattened" in
            match walkDirectory dir rootDir [] rootDir ig excludeDirs excludeFiles with
            | Err message => (∅, Uncaught message)
            | Ok filePaths =>
                match copyFiles fs filePaths rootDir flattenedDir toTxtExtensions ∅ with
                | (written, Ok _) => (written, Done tt)
                | (written, Err message) => (written, Uncaught message)
                end
            end
        end
  end.

(** ** [concatenateFiles] *)

(** The body of the loop over the walked files; the state is everything
    written to the stream so far. *)
Definition concatenateFile (fs : filesystem) (rootDir : string)
    (writeStream : string) (filePath : string) : string :=
  let relative := Path.relative rootDir filePath in
  let writeStream := writeStream +:+ (nl +:+ "=== " +:+ relative +:+ " ===" +:+ nl) in
  match readFileSync fs filePath with
  | Ok content =>
      let writeStream := writeStream +:+ content in
      if negb (JS.endsWith content newline)
      then writeStream +:+ nl
      else writeStream
  | Err message =>
      writeStream +:+ ("[Error reading file: " +:+ message +:+ "]" +:+ nl)
  end.

(** The result is the content of the output file, which [outputFile]
    only names.  The output file is removed before the stream is opened,
    so the stream starts empty. *)
Definition concatenateFiles (ignore_add : list string -> Ignore) (fs : filesystem)
    (rootDir : string) (excludeDirs excludeFiles : gset string)
    (outputFile : string) : outcome string :=
  match root fs with
  | None =>
      Exited 1 ("Directory " +:+ dquote +:+ rootDir +:+ dquote +:+ " does not exist.")
  | Some dir =>
      if negb (isDirectory dir)
      then Exited 1 ("Path " +:+ dquote +:+ rootDir +:+ dquote +:+ " is not a directory.")
      else
        match loadGitignore ignore_add fs rootDir with
        | Err message => Uncaught message
        | Ok ig =>
            match walkDirectory dir rootDir [] rootDir ig excludeDirs excludeFiles with
            | Err message => Uncaught message
            | Ok filePaths =>
                Done (List.fold_left (concatenateFile fs rootDir) filePaths EmptyString)
            end
        end
  end.

(** ** The command line *)

Definition DEFAULT_LOCKFILES : gset string :=
  {[ "yarn.lock"; "package-lock.json"; "pnpm-lock.yaml" ]}.

(** The options as [commander] hands them over; each list defaults to the
    empty list. *)
Record flatten_options : Type := mk_flatten_options {
  flatten_excludeDir : list string;
  flatten_excludeFile : list string;
  flatten_toTxt : list string
}.

Record concat_options : Type := mk_concat_options {
  concat_excludeDir : list string;
  concat_excludeFile : list string;
  concat_output : string
}.

Definition flatten_action (ignore_add : list string -> Ignore) (fs : filesystem)
    (directory : string) (options : flatten_options)
  : gmap string string * outcome unit :=
  let userExcludeFiles : gset string := list_to_set (flatten_excludeFile options) in
  let excludeFiles := DEFAULT_LOCKFILES ∪ userExcludeFiles in
  let excludeDirs : gset string := list_to_set (flatten_excludeDir options) in
  let toTxtExtensions : gset string := list_to_set (flatten_toTxt options) in
  flattenProject ignore_add fs directory excludeDirs excludeFiles toTxtExtensions.

Definition concat_action (ignore_add : list string -> Ignore) (fs : filesystem)
    (directory : string) (options : concat_options) : outcome string :=
  let userExcludeFiles : gset string := list_to_set (concat_excludeFile options) in
  let excludeFiles := DEFAULT_LOCKFILES ∪ userExcludeFiles in
  let excludeDirs : gset string := list_to_set (concat_excludeDir options) in
  let outputFile :=
    if String.eqb (concat_output options) EmptyString then "all.txt"
    else concat_output options in
  concatenateFiles ignore_add fs directory excludeDirs excludeFiles outputFile.

(** ** Well-formed names, paths and trees *)

Fixpoint slash_free (s : string) : bool :=
  match s with
  | EmptyString => true
  | String a s' => negb (Ascii.eqb a Path.sep) && slash_free s'
  end.

(** A name that [readdir] can return: not empty, not [.] or [..], and
    without a separator. *)
Definition name_ok (name : string) : bool :=
  negb (String.eqb name EmptyString) && negb (String.eqb name ".")
  && negb (String.eqb name "..") && slash_free name.

(** A path as [path.resolve] and [process.cwd()] return it: absolute and
    normalised. *)
Definition resolved (p : string) : bool :=
  String.eqb p (Path.absolute (Path.segments p))
  && forallb name_ok (Path.segments p).

(** Every name in every listing of the tree is a possible name. *)
Fixpoint names_ok (n : node) : bool :=
  match n with
  | Dir entries =>
      (fix all (entries : list (string * node)) : bool :=
         match entries with
         | [] => true
         | (name, entry) :: rest => name_ok name && names_ok entry && all rest
         end) entries
  | _ => true
  end.

Fixpoint entries_ok (entries : list (string * node)) : bool :=
  match entries with
  | [] => true
  | (name, entry) :: rest => name_ok name && names_ok entry && entries_ok rest
  end.

(** The path reached from [dir] by going down through [names]. *)
Definition descend (dir : string) (names : list string) : string :=
  List.fold_left Path.join names dir.

(** [file] lies inside the directory [dir]. *)
Definition inside (dir file : string) : bool :=
  String.prefix (dir +:+ Path.sep_string) file.

(** ** The induction principle of the tree *)

Section NodeInd.
Variable P : node -> Prop.
Hypothesis HFile : P File.
Hypothesis HDir : forall entries, Forall (fun e => P (snd e)) entries -> P (Dir entries).
Hypothesis HUnlistable : forall message, P (Unlistable message).
Hypothesis HSymlink : P Symlink.
Hypothesis HSpecial : P Special.

Fixpoint node_ind (n : node) : P n :=
  match n with
  | File => HFile
  | Dir entries =>
      HDir entries
        ((fix all (es : list (string * node)) : Forall (fun e => P (snd e)) es :=
            match es with
            | [] => @List.Forall_nil _ _
            | e :: es' => @List.Forall_cons _ _ e es' (node_ind (snd e)) (all es')
            end) entries)
  | Unlistable message => HUnlistable message
  | Symlink => HSymlink
  | Special => HSpecial
  end.
End NodeInd.

(** ** Where the walked files come from *)

(** The walk goes into a directory called [name] at [fullPath]. *)
Definition entered (rootDir : string) (ig : Ignore) (excludeDirs : gset string)
    (name fullPath : string) : Prop :=
  String.eqb name "flatbrain" = false /\ String.eqb name ".git" = false
  /\ has excludeDirs name = false
  /\ ig (Path.relative rootDir fullPath) = Ok false.

(** [file] is an entry of [dirPath], or of a directory below it that the
    walk reaches only through directories it goes into. *)
Inductive walked_below (rootDir : string) (ig : Ignore) (excludeDirs : gset string)
  : string -> string -> Prop :=
| walked_here dirPath name :
    name_ok name = true ->
    walked_below rootDir ig excludeDirs dirPath (Path.join dirPath name)
| walked_deeper dirPath name file :
    name_ok name = true ->
    entered rootDir ig excludeDirs name (Path.join dirPath name) ->
    walked_below rootDir ig excludeDirs (Path.join dirPath name) file ->
    walked_below rootDir ig excludeDirs dirPath file.


(** ** Directories that cannot be listed *)

(** The walk that starts at [dirPath] gets to a directory whose listing
    fails: [dir] itself, or one below it that the walk goes into. *)
Inductive unlistable_reached (rootDir : string) (ig : Ignore) (excludeDirs : gset string)
  : string -> node -> Prop :=
| unlistable_here dirPath message :
    unlistable_reached rootDir ig excludeDirs dirPath (Unlistable message)
| unlistable_deeper dirPath entries name entry :
    In (name, entry) entries ->
    entered rootDir ig excludeDirs name (Path.join dirPath name) ->
    unlistable_reached rootDir ig excludeDirs (Path.join dirPath name) entry ->
    unlistable_reached rootDir ig excludeDirs dirPath (Dir entries).

(** ** The tree without its lock files *)

(** The tree in which no regular file has one of the default lock file
    names, at any depth. *)
Fixpoint without_lockfiles (n : node) : node :=
  match n with
  | Dir entries =>
      Dir ((fix prune (entries : list (string * node)) : list (string * node) :=
              match entries with
              | [] => []
              | (name, entry) :: rest =>
                  if isFile entry && has DEFAULT_LOCKFILES name then prune rest
                  else (name, without_lockfiles entry) :: prune rest
              end) entries)
  | _ => n
  end.

Fixpoint entries_without_lockfiles (entries : list (string * node))
  : list (string * node) :=
  match entries with
  | [] => []
  | (name, entry) :: rest =>
      if isFile entry && has DEFAULT_LOCKFILES name then entries_without_lockfiles rest
      else (name, without_lockfiles entry) :: entries_without_lockfiles rest
  end.

Definition hide_lockfiles (fs : filesystem) : filesystem :=
  mk_filesystem (option_map without_lockfiles (root fs)) (existsSync fs) (readFileSync fs).

(** ** The concatenated artifact, block by block *)






(** ** Example file systems *)

(** A [.gitignore]-less setting: an [ignore] instance that ignores
    nothing. *)
Definition ignore_nothing : list string -> Ignore := fun _ _ => Ok false.

(** The root [/r] holds exactly [src/a.js] and [b.txt]. *)
Definition two_files_tree : node :=
  Dir [("src", Dir [("a.js", File)]); ("b.txt", File)].

Definition two_files_read (path : string) : result string :=
  if String.eqb path "/r/src/a.js" then Ok "hello"
  else if String.eqb path "/r/b.txt" then Ok "world"
  else Err "ENOENT: no such file or directory".

Definition two_files : filesystem :=
  mk_filesystem (Some two_files_tree) (fun _ => false) two_files_read.

(** The root [/r] holds a file called [a^b.txt] next to a directory [a]
    with a file [b.txt]. *)
Definition caret_tree : node :=
  Dir [("a^b.txt", File); ("a", Dir [("b.txt", File)])].

Definition caret_read (path : string) : result string :=
  if String.eqb path "/r/a^b.txt" then Ok "first"
  else if String.eqb path "/r/a/b.txt" then Ok "second"
  else Err "ENOENT: no such file or directory".

Definition caret_fs : filesystem :=
  mk_filesystem (Some caret_tree) (fun _ => false) caret_read.

(** The root [/r] holds a symbolic link, a regular file, a directory
    [node_modules] that cannot be listed, and a directory [yarn.lock]. *)
Definition mixed_tree : node :=
  Dir [("link", Symlink); ("b.txt", File);
       ("node_modules", Unlistable "EACCES: permission denied, scandir");
       ("yarn.lock", Dir [("notes.md", File)])].

Definition mixed_read (path : string) : result string :=
  if String.eqb path "/r/b.txt" then Ok "world"
  else if String.eqb path "/r/yarn.lock/notes.md" then Ok "notes"
  else Err "EISDIR: illegal operation on a directory, read".

Definition mixed_fs : filesystem :=
  mk_filesystem (Some mixed_tree) (fun _ => false) mixed_read.

(** ** The files the walk collects *)

(** [file] is collected by the walk of [dir] at [dirPath]: it is an entry
    of the listing that is no directory and passes the tests of the loop,
    or it is collected by the walk of a directory entry that the walk goes
    into. *)
Inductive collects (rootDir : string) (ig : Ignore) (excludeDirs excludeFiles : gset string)
  : string -> node -> string -> Prop :=
| collects_here dirPath entries name entry :
    In (name, entry) entries ->
    isDirectory entry = false ->
    String.eqb name "flatbrain" = false -> String.eqb name ".git" = false ->
    isFile entry && has excludeFiles name = false ->
    ig (Path.relative rootDir (Path.join dirPath name)) = Ok false ->
    collects rootDir ig excludeDirs excludeFiles dirPath (Dir entries) (Path.join dirPath name)
| collects_deeper dirPath entries name entry file :
    In (name, entry) entries ->
    entered rootDir ig excludeDirs name (Path.join dirPath name) ->
    collects rootDir ig excludeDirs excludeFiles (Path.join dirPath name) entry file ->
    collects rootDir ig excludeDirs excludeFiles dirPath (Dir entries) file.

(** Every directory of the tree can be listed. *)
Fixpoint listable (n : node) : bool :=
  match n with
  | Dir entries =>
      (fix all (entries : list (string * node)) : bool :=
         match entries with
         | [] => true
         | (_, entry) :: rest => listable entry && all rest
         end) entries
  | Unlistable _ => false
  | _ => true
  end.

Fixpoint entries_listable (entries : list (string * node)) : bool :=
  match entries with
  | [] => true
  | (_, entry) :: rest => listable entry && entries_listable rest
  end.

(** No directory of the tree lists a name twice. *)
Fixpoint unique_names (n : node) : bool :=
  match n with
  | Dir entries =>
      bool_decide (NoDup (List.map fst entries))
      && (fix all (entries : list (string * node)) : bool :=
            match entries with
            | [] => true
            | (_, entry) :: rest => unique_names entry && all rest
            end) entries
  | _ => true
  end.

Fixpoint entries_unique (entries : list (string * node)) : bool :=
  match entries with
  | [] => true
  | (_, entry) :: rest => unique_names entry && entries_unique rest
  end.

Fixpoint caret_free (s : string) : bool :=
  match s with
  | EmptyString => true
  | String a s' => negb (Ascii.eqb a "^"%char) && caret_free s'
  end.

(** No name in any listing of the tree has a [^]. *)
Fixpoint carets_free (n : node) : bool :=
  match n with
  | Dir entries =>
      (fix all (entries : list (string * node)) : bool :=
         match entries with
         | [] => true
         | (name, entry) :: rest => caret_free name && carets_free entry && all rest
         end) entries
  | _ => true
  end.

Fixpoint entries_carets_free (entries : list (string * node)) : bool :=
  match entries with
  | [] => true
  | (name, entry) :: rest =>
      caret_free name && carets_free entry && entries_carets_free rest
  end.
(** * Properties *)

(** ** The model of [path] and of the string primitives on examples *)

Example extname_html : Path.extname "index.html" = ".html".
Proof. reflexivity. Qed.
Example extname_two : Path.extname "index.coffee.md" = ".md".
Proof. reflexivity. Qed.
Example extname_trailing_dot : Path.extname "index." = ".".
Proof. reflexivity. Qed.
Example extname_none : Path.extname "index" = "".
Proof. reflexivity. Qed.
Example extname_dotfile : Path.extname ".index" = "".
Proof. reflexivity. Qed.
Example extname_dotfile_md : Path.extname ".index.md" = ".md".
Proof. reflexivity. Qed.
Example extname_dotdot : Path.extname ".." = "".
Proof. reflexivity. Qed.
Example extname_dir : Path.extname "/a.b/c" = "".
Proof. reflexivity. Qed.
Example join_root : Path.join "/" "a" = "/a".
Proof. reflexivity. Qed.
Example join_nested : Path.join "/home/u/proj" "src" = "/home/u/proj/src".
Proof. reflexivity. Qed.
Example relative_nested :
  Path.relative "/home/u/proj" "/home/u/proj/src/sub/test.js" = "src/sub/test.js".
Proof. reflexivity. Qed.
Example relative_up : Path.relative "/a/b/c" "/a/d" = "../../d".
Proof. reflexivity. Qed.
Example split_lines :
  JS.split newline ("*.log" +:+ nl +:+ "node_modules") = ["*.log"; "node_modules"].
Proof. reflexivity. Qed.

Example flattened_docstring : getFlattenedFileName "/root/src/sub/test.js" "/root/src" = "sub^test.js".
Proof. reflexivity. Qed.
Example slice_drops_extension : JS.slice_0_neg "sub^test.vue" 4 = "sub^test".
Proof. reflexivity. Qed.

(** ** The loop of the walk *)

(** The four tests of the loop body that skip an entry before the ignore
    patterns are asked; [skip] closes the cases in which the entry is
    skipped. *)
Ltac loop_tests name entry excludeDirs excludeFiles skip :=
  destruct (String.eqb name "flatbrain"); [skip|];
  destruct (String.eqb name ".git"); [skip|];
  destruct (isDirectory entry && has excludeDirs name); [skip|];
  destruct (isFile entry && has excludeFiles name); [skip|].

Lemma names_ok_Dir entries : names_ok (Dir entries) = entries_ok entries.
Proof. induction entries as [|[name entry] rest IH]; simpl; [reflexivity|]. simpl in IH. by rewrite IH. Qed.

Lemma walkDirectory_Dir entries dirPath fileList rootDir ig excludeDirs excludeFiles :
  walkDirectory (Dir entries) dirPath fileList rootDir ig excludeDirs excludeFiles
  = walkEntries entries dirPath fileList rootDir ig excludeDirs excludeFiles.
Proof.
  revert fileList. induction entries as [|[name entry] rest IH]; intros fileList; [reflexivity|].
  simpl in *.
  loop_tests name entry excludeDirs excludeFiles ltac:(apply IH).
  destruct (ig _) as [[|]|]; simpl; [apply IH| |reflexivity].
  destruct (isDirectory entry); [|apply IH].
  destruct (walkDirectory entry _ _ _ _ _ _); simpl; [apply IH | reflexivity].
Qed.

(** [walkDirectory] lists the directory and runs the loop. *)
Lemma walkDirectory_unfold dir dirPath fileList rootDir ig excludeDirs excludeFiles :
  walkDirectory dir dirPath fileList rootDir ig excludeDirs excludeFiles
  = let* entries := readdirSync dir in
    walkEntries entries dirPath fileList rootDir ig excludeDirs excludeFiles.
Proof. destruct dir; try reflexivity. apply walkDirectory_Dir. Qed.
(** ** Strings and paths *)

Lemma append_nil (b : string) : EmptyString +:+ b = b.
Proof. reflexivity. Qed.

Lemma append_cons x (a b : string) : String x a +:+ b = String x (a +:+ b).
Proof. reflexivity. Qed.

Lemma append_assoc (a b c : string) : (a +:+ b) +:+ c = a +:+ (b +:+ c).
Proof.
  induction a as [|x a IH]; [reflexivity|].
  rewrite !append_cons. f_equal. exact IH.
Qed.

Lemma append_empty_r (a : string) : a +:+ EmptyString = a.
Proof.
  induction a as [|x a IH]; [reflexivity|].
  rewrite append_cons. f_equal. exact IH.
Qed.

Lemma split_not_nil c s : JS.split c s <> [].
Proof.
  destruct s as [|a s]; simpl; [discriminate|].
  destruct (Ascii.eqb a c); [discriminate|]. destruct (JS.split c s); discriminate.
Qed.

Lemma split_app_sep c a b :
  JS.split c (a +:+ String c b) = JS.split c a ++ JS.split c b.
Proof.
  induction a as [|x a IH]; [rewrite append_nil | rewrite append_cons]; simpl.
  - by rewrite Ascii.eqb_refl.
  - destruct (Ascii.eqb x c); [by rewrite IH|].
    rewrite IH. pose proof (split_not_nil c a) as Hne.
    destruct (JS.split c a); [contradiction | reflexivity].
Qed.

Lemma split_slash_free s : slash_free s = true -> JS.split Path.sep s = [s].
Proof.
  induction s as [|a s IH]; simpl; [reflexivity|].
  intros [Ha Hs]%andb_prop. apply negb_true_iff in Ha. rewrite Ha, (IH Hs). reflexivity.
Qed.

Lemma name_ok_slash_free name : name_ok name = true -> slash_free name = true.
Proof. unfold name_ok. intros H. repeat (apply andb_prop in H as [H ?]). assumption. Qed.

Lemma segments_app_sep a b :
  Path.segments (a +:+ Path.sep_string +:+ b) = Path.segments a ++ Path.segments b.
Proof.
  unfold Path.segments, Path.sep_string. rewrite append_cons, append_nil.
  rewrite split_app_sep. apply List.filter_app.
Qed.

Lemma segments_name name : name_ok name = true -> Path.segments name = [name].
Proof.
  intros H. unfold Path.segments. rewrite (split_slash_free _ (name_ok_slash_free _ H)).
  simpl. destruct (String.eqb_spec name EmptyString) as [->|]; [discriminate | reflexivity].
Qed.

Lemma concat_cons sep x y l :
  String.concat sep (x :: y :: l) = x +:+ sep +:+ String.concat sep (y :: l).
Proof. reflexivity. Qed.

Lemma segments_concat names :
  forallb name_ok names = true ->
  Path.segments (String.concat Path.sep_string names) = names.
Proof.
  induction names as [|x [|y l] IH]; intros H.
  - reflexivity.
  - simpl in *. apply segments_name. by destruct (name_ok x).
  - rewrite concat_cons, segments_app_sep.
    simpl in H. apply andb_prop in H as [Hx H].
    rewrite (segments_name _ Hx). simpl. f_equal. apply IH. exact H.
Qed.

Lemma segments_absolute names :
  forallb name_ok names = true -> Path.segments (Path.absolute names) = names.
Proof.
  intros H. unfold Path.absolute.
  change (Path.sep_string +:+ ?s) with (EmptyString +:+ Path.sep_string +:+ s).
  rewrite segments_app_sep, segments_concat by exact H. reflexivity.
Qed.

Lemma resolved_inv p :
  resolved p = true ->
  exists names, forallb name_ok names = true /\ p = Path.absolute names.
Proof.
  unfold resolved. intros [Hp Hs]%andb_prop. apply String.eqb_eq in Hp. eauto.
Qed.

Lemma join_absolute names name :
  forallb name_ok names = true -> name_ok name = true ->
  Path.join (Path.absolute names) name = Path.absolute (names ++ [name]).
Proof.
  intros Hs Hn. unfold Path.join.
  change (Path.isAbsolute (Path.absolute names)) with true. cbv iota.
  rewrite segments_app_sep, segments_absolute, segments_name by assumption. reflexivity.
Qed.

Lemma forallb_snoc {A} (f : A -> bool) l x :
  forallb f (l ++ [x]) = forallb f l && f x.
Proof. rewrite forallb_app. simpl. by rewrite andb_true_r. Qed.

Lemma descend_absolute names more :
  forallb name_ok names = true -> forallb name_ok more = true ->
  descend (Path.absolute names) more = Path.absolute (names ++ more).
Proof.
  unfold descend. revert names. induction more as [|x more IH]; intros names Hs Hm; simpl.
  - by rewrite app_nil_r.
  - simpl in Hm. apply andb_prop in Hm as [Hx Hm].
    rewrite join_absolute by assumption. rewrite IH.
    + by rewrite <- app_assoc.
    + rewrite forallb_snoc, Hs, Hx. reflexivity.
    + exact Hm.
Qed.

Lemma strip_common_app names more :
  Path.strip_common names (names ++ more) = ([], more).
Proof.
  induction names as [|x names IH]; simpl; [by destruct more|].
  rewrite String.eqb_refl. exact IH.
Qed.

Lemma relative_absolute names more :
  forallb name_ok names = true -> forallb name_ok more = true ->
  Path.relative (Path.absolute names) (Path.absolute (names ++ more))
  = String.concat Path.sep_string more.
Proof.
  intros Hs Hm. unfold Path.relative.
  rewrite !segments_absolute; [|by rewrite forallb_app, Hs, Hm|exact Hs].
  rewrite strip_common_app. reflexivity.
Qed.
(** ** Soundness of the walk *)

Section Walk.
Variables (rootDir : string) (ig : Ignore) (excludeDirs excludeFiles : gset string).

Lemma walkEntries_sound entries :
  Forall (fun e =>
    names_ok (snd e) = true ->
    forall dirPath fileList files,
      walkDirectory (snd e) dirPath fileList rootDir ig excludeDirs excludeFiles = Ok files ->
      forall file, In file files -> In file fileList \/ walked_below rootDir ig excludeDirs dirPath file) entries ->
  entries_ok entries = true ->
  forall dirPath fileList files,
    walkEntries entries dirPath fileList rootDir ig excludeDirs excludeFiles = Ok files ->
    forall file, In file files -> In file fileList \/ walked_below rootDir ig excludeDirs dirPath file.
Proof.
  induction 1 as [|[name entry] rest Hentry _ IH]; intros Hok dirPath fileList files Hwalk file Hin.
  - simpl in Hwalk. injection Hwalk as <-. by left.
  - simpl in Hok. apply andb_prop in Hok as [[Hname Hsub]%andb_prop Hrest].
    specialize (IH Hrest dirPath). simpl in Hentry, Hwalk.
    destruct (String.eqb name "flatbrain") eqn:Hfb; [by eapply IH|].
    destruct (String.eqb name ".git") eqn:Hgit; [by eapply IH|].
    destruct (isDirectory entry && has excludeDirs name) eqn:Hxd; [by eapply IH|].
    destruct (isFile entry && has excludeFiles name) eqn:Hxf; [by eapply IH|].
    destruct (ig _) as [[|]|] eqn:Hig; simpl in Hwalk; [by eapply IH| |discriminate].
    destruct (isDirectory entry) eqn:Hdir.
    + destruct (walkDirectory entry _ _ _ _ _ _) as [inner|] eqn:Hinner;
        simpl in Hwalk; [|discriminate].
      destruct (IH _ _ Hwalk _ Hin) as [Hin'|]; [|by right].
      destruct (Hentry Hsub _ _ _ Hinner _ Hin') as [|Hbelow]; [by left|].
      right. eapply walked_deeper; [exact Hname| |exact Hbelow].
      simpl in Hxd. by repeat split.
    + destruct (IH _ _ Hwalk _ Hin) as [Hin'|]; [|by right].
      apply in_app_or in Hin' as [|[<-|[]]]; [by left|].
      right. by apply walked_here.
Qed.

Lemma walkDirectory_sound dir :
  names_ok dir = true ->
  forall dirPath fileList files,
    walkDirectory dir dirPath fileList rootDir ig excludeDirs excludeFiles = Ok files ->
    forall file, In file files -> In file fileList \/ walked_below rootDir ig excludeDirs dirPath file.
Proof.
  induction dir as [|entries IH| | |] using node_ind; try discriminate.
  intros Hok dirPath fileList files. rewrite walkDirectory_Dir.
  rewrite names_ok_Dir in Hok. by apply walkEntries_sound.
Qed.

(** A walked file is the directory's path extended by at least one name,
    and the walk went into every directory on the way. *)
Lemma walked_below_absolute dirPath file :
  walked_below rootDir ig excludeDirs dirPath file ->
  forall base, forallb name_ok base = true -> dirPath = Path.absolute base ->
  exists more,
    more <> [] /\ forallb name_ok more = true
    /\ file = Path.absolute (base ++ more)
    /\ forall pre name post,
         more = pre ++ name :: post -> post <> [] ->
         entered rootDir ig excludeDirs name (Path.absolute (base ++ pre ++ [name])).
Proof.
  induction 1 as [dirPath name Hname | dirPath name file Hname Hent _ IH];
    intros base Hbase ->.
  - exists [name]. split; [discriminate|]. split; [by simpl; rewrite Hname|].
    split; [by apply join_absolute|].
    intros pre n post Heq Hpost. destruct pre as [|? [|? ?]]; simplify_eq/=.
  - rewrite join_absolute in Hent, IH by assumption.
    destruct (IH (base ++ [name])) as (more & Hne & Hok & -> & Hpre); [|reflexivity|].
    { by rewrite forallb_snoc, Hbase, Hname. }
    exists (name :: more). split; [discriminate|]. split; [by simpl; rewrite Hname|].
    split; [by rewrite <- app_assoc|].
    intros pre n post Heq Hpost. destruct pre as [|p pre]; simplify_eq/=.
    + exact Hent.
    + specialize (Hpre pre n post eq_refl Hpost).
      by rewrite <- app_assoc in Hpre.
Qed.
End Walk.
Lemma prefix_inv a b : String.prefix a b = true -> exists r, b = a +:+ r.
Proof.
  revert b. induction a as [|x a IH]; intros b H.
  - by exists b.
  - destruct b as [|y b]; simpl in H; [discriminate|].
    destruct (ascii_dec x y) as [->|]; [|discriminate].
    destruct (IH _ H) as [r ->]. by exists r.
Qed.

(** A file inside an absolute directory has the directory's names as a
    proper prefix of its own. *)
Lemma inside_absolute dir file :
  forallb name_ok dir = true -> forallb name_ok file = true ->
  inside (Path.absolute dir) (Path.absolute file) = true ->
  exists post, post <> [] /\ file = dir ++ post.
Proof.
  intros Hdir Hfile [r Hr]%prefix_inv.
  rewrite append_assoc in Hr.
  assert (file = dir ++ Path.segments r) as Heq.
  { rewrite <- (segments_absolute file Hfile), Hr, segments_app_sep.
    by rewrite segments_absolute. }
  exists (Path.segments r). split; [|exact Heq].
  intros Hnil. rewrite Hnil, app_nil_r in Heq. subst file.
  rewrite <- (append_empty_r (Path.absolute dir)) in Hr at 1.
  apply String.app_inj in Hr. discriminate.
Qed.

(** ** The commands in terms of the walk *)



(** A run that does not get as far as the walk's result writes nothing. *)
Lemma flattenProject_inv ignore_add fs rootDir excludeDirs excludeFiles toTxtExtensions
    written how dest content :
  flattenProject ignore_add fs rootDir excludeDirs excludeFiles toTxtExtensions = (written, how) ->
  written !! dest = Some content ->
  exists dir ig files,
    root fs = Some dir /\ isDirectory dir = true
    /\ loadGitignore ignore_add fs rootDir = Ok ig
    /\ walkDirectory dir rootDir [] rootDir ig excludeDirs excludeFiles = Ok files
    /\ fst (copyFiles fs files rootDir (Path.join (Path.join rootDir "flatbrain") "flattened")
              toTxtExtensions ∅) = written.
Proof.
  unfold flattenProject. intros Hrun Hdest.
  destruct (root fs) as [dir|]; [|by simplify_eq].
  destruct (isDirectory dir) eqn:Hdir; simpl in Hrun; [|by simplify_eq].
  destruct (loadGitignore _ _ _) as [ig|]; [|by simplify_eq].
  destruct (walkDirectory _ _ _ _ _ _ _) as [files|] eqn:Hwalk; [|by simplify_eq].
  exists dir, ig, files. repeat split; try done.
  destruct (copyFiles _ _ _ _ _ _) as [w [|]]; by simplify_eq.
Qed.

Lemma concatenateFiles_inv ignore_add fs rootDir excludeDirs excludeFiles outputFile artifact :
  concatenateFiles ignore_add fs rootDir excludeDirs excludeFiles outputFile = Done artifact ->
  exists dir ig files,
    root fs = Some dir /\ isDirectory dir = true
    /\ loadGitignore ignore_add fs rootDir = Ok ig
    /\ walkDirectory dir rootDir [] rootDir ig excludeDirs excludeFiles = Ok files
    /\ artifact = List.fold_left (concatenateFile fs rootDir) files EmptyString.
Proof.
  unfold concatenateFiles. intros Hrun.
  destruct (root fs) as [dir|]; [|discriminate].
  destruct (isDirectory dir) eqn:Hdir; simpl in Hrun; [|discriminate].
  destruct (loadGitignore _ _ _) as [ig|]; [|discriminate].
  destruct (walkDirectory _ _ _ _ _ _ _) as [files|] eqn:Hwalk; [|discriminate].
  exists dir, ig, files. repeat split; try done. by injection Hrun.
Qed.

(** Every file in the output directory is the copy of one of the files
    handed to the copy loop. *)
Lemma copyFiles_lookup fs files rootDir flattenedDir toTxtExtensions written dest content :
  fst (copyFiles fs files rootDir flattenedDir toTxtExtensions written) !! dest = Some content ->
  written !! dest = Some content
  \/ exists file,
       In file files
       /\ dest = Path.join flattenedDir (flattenedFileName toTxtExtensions file rootDir)
       /\ readFileSync fs file = Ok content.
Proof.
  revert written. induction files as [|file rest IH]; intros written H; simpl in H; [by left|].
  destruct (readFileSync fs file) as [c|] eqn:Hread; simpl in H; [|by left].
  destruct (IH _ H) as [Hw|(f & Hin & Hd & Hr)].
  - rewrite lookup_insert in Hw. case_decide as Heq.
    + right. exists file. simplify_eq. by repeat split; [left|..].
    + by left.
  - right. exists f. by repeat split; [right|..].
Qed.
(** ** Substrings *)





(** ** [path.extname] on a name without separators *)

Lemma slash_free_replace_all s : slash_free (JS.replace_all Path.sep "^"%char s) = true.
Proof.
  induction s as [|a s IH]; [reflexivity|]. simpl.
  rewrite IH, andb_true_r. by destruct (Ascii.eqb a Path.sep) eqn:E; [|rewrite E].
Qed.






(** ** Flattened names *)

Lemma replace_all_app c d a b :
  JS.replace_all c d (a +:+ b) = JS.replace_all c d a +:+ JS.replace_all c d b.
Proof.
  induction a as [|x a IH]; [reflexivity|].
  rewrite append_cons. simpl. rewrite append_cons. by rewrite IH.
Qed.

Lemma replace_all_slash_free s :
  slash_free s = true -> JS.replace_all Path.sep "^"%char s = s.
Proof.
  induction s as [|a s IH]; [reflexivity|]. simpl.
  intros [Ha Hs]%andb_prop. apply negb_true_iff in Ha. by rewrite Ha, IH.
Qed.

Lemma replace_all_concat names :
  forallb name_ok names = true ->
  JS.replace_all Path.sep "^"%char (String.concat Path.sep_string names)
  = String.concat "^" names.
Proof.
  induction names as [|x [|y l] IH]; intros H.
  - reflexivity.
  - simpl in *. apply replace_all_slash_free, name_ok_slash_free. by destruct (name_ok x).
  - rewrite !concat_cons, !replace_all_app. simpl in H. apply andb_prop in H as [Hx H].
    rewrite (replace_all_slash_free x) by by apply name_ok_slash_free.
    by rewrite IH.
Qed.


(** C3: the flattened name of a file reached from the root through
    [names] is its root-relative path, the names joined by [/], with every
    separator replaced by [^], that is the names joined by [^]; no
    separator is left in a flattened name; a file directly in the root
    flattens to its own name, and keeps it when its extension is not
    retargeted; and every walked file is reached from the root through
    such names. *)
Theorem flattened_name_replaces_every_separator rootDir :
  resolved rootDir = true ->
  (forall filePath,
     getFlattenedFileName filePath rootDir
     = JS.replace_all Path.sep "^"%char (Path.relative rootDir filePath)
     /\ slash_free (getFlattenedFileName filePath rootDir) = true)
  /\ (forall names, forallb name_ok names = true ->
        Path.relative rootDir (descend rootDir names) = String.concat "/" names
        /\ getFlattenedFileName (descend rootDir names) rootDir = String.concat "^" names)
  /\ (forall name toTxtExtensions, name_ok name = true ->
        getFlattenedFileName (Path.join rootDir name) rootDir = name
        /\ (has toTxtExtensions (Path.extname name) = false ->
            flattenedFileName toTxtExtensions (Path.join rootDir name) rootDir = name))
  /\ (forall tree ig excludeDirs excludeFiles files,
        names_ok tree = true ->
        walkDirectory tree rootDir [] rootDir ig excludeDirs excludeFiles = Ok files ->
        forall file, In file files ->
        exists names,
          names <> [] /\ forallb name_ok names = true /\ file = descend rootDir names).
Proof.
  intros (base & Hbase & ->)%resolved_inv.
  assert (forall names, forallb name_ok names = true ->
    Path.relative (Path.absolute base) (descend (Path.absolute base) names)
      = String.concat "/" names
    /\ getFlattenedFileName (descend (Path.absolute base) names) (Path.absolute base)
       = String.concat "^" names) as Hnames.
  { intros names Hnames. unfold getFlattenedFileName.
    rewrite descend_absolute, relative_absolute by assumption.
    split; [reflexivity | by apply replace_all_concat]. }
  split; [|split; [exact Hnames|split]].
  - intros filePath. split; [reflexivity | apply slash_free_replace_all].
  - intros name toTxtExtensions Hname.
    destruct (Hnames [name]) as [_ Hflat]; [by simpl; rewrite Hname|].
    simpl in Hflat. split; [exact Hflat|].
    intros Hext. unfold flattenedFileName. by rewrite Hflat, Hext.
  - intros tree ig excludeDirs excludeFiles files Htree Hwalk file Hin.
    destruct (walkDirectory_sound _ _ _ _ _ Htree _ _ _ Hwalk _ Hin) as [[]|Hbelow].
    destruct (walked_below_absolute _ _ _ _ _ Hbelow base Hbase eq_refl)
      as (more & Hne & Hok & -> & _).
    exists more. by rewrite descend_absolute.
Qed.

Lemma flattened_name_witness :
  resolved "/home/u/proj" = true
  /\ getFlattenedFileName (descend "/home/u/proj" ["a"; "b"; "c.ext"]) "/home/u/proj"
     = "a^b^c.ext".
Proof.
  split; [reflexivity|].
  apply (proj2 (proj1 (proj2 (flattened_name_replaces_every_separator "/home/u/proj" eq_refl))
                 ["a"; "b"; "c.ext"] eq_refl)).
Defined.



(** Outside C9: the empty string is no extension.  When it is configured
    all the same, [slice(0, -0)] is the empty string, and a name without
    extension becomes [.txt]. *)
Remark empty_string_configured_cuts_the_name :
  Path.extname "Makefile" = EmptyString
  /\ flattenedFileName {[ EmptyString ]} "/r/Makefile" "/r" = ".txt".
Proof. split; reflexivity. Qed.

(** ** The exclusion rules of the loop *)

(** The first two tests of the loop body. *)
Lemma walkEntries_structural name entry rest dirPath fileList rootDir ig excludeDirs excludeFiles :
  String.eqb name "flatbrain" = true \/ String.eqb name ".git" = true ->
  walkEntries ((name, entry) :: rest) dirPath fileList rootDir ig excludeDirs excludeFiles
  = walkEntries rest dirPath fileList rootDir ig excludeDirs excludeFiles.
Proof.
  intros [H|H]; simpl; rewrite H; [reflexivity|].
  by destruct (String.eqb name "flatbrain").
Qed.

(** The two name tests of the loop body. *)
Lemma walkEntries_named name entry rest dirPath fileList rootDir ig excludeDirs excludeFiles :
  isDirectory entry && has excludeDirs name = true
  \/ isFile entry && has excludeFiles name = true ->
  walkEntries ((name, entry) :: rest) dirPath fileList rootDir ig excludeDirs excludeFiles
  = walkEntries rest dirPath fileList rootDir ig excludeDirs excludeFiles.
Proof.
  intros H. simpl.
  destruct (String.eqb name "flatbrain"); [reflexivity|].
  destruct (String.eqb name ".git"); [reflexivity|].
  destruct H as [->| ->]; [reflexivity|].
  by destruct (isDirectory entry && has excludeDirs name).
Qed.

(** The loop body once the structural and the name tests have let the
    entry through. *)
Lemma walkEntries_passed name entry rest dirPath fileList rootDir ig excludeDirs excludeFiles :
  String.eqb name "flatbrain" = false -> String.eqb name ".git" = false ->
  isDirectory entry && has excludeDirs name = false ->
  isFile entry && has excludeFiles name = false ->
  walkEntries ((name, entry) :: rest) dirPath fileList rootDir ig excludeDirs excludeFiles
  = let* ignored := ig (Path.relative rootDir (Path.join dirPath name)) in
    if (ignored : bool)
    then walkEntries rest dirPath fileList rootDir ig excludeDirs excludeFiles
    else if isDirectory entry then
      let* fileList :=
        walkDirectory entry (Path.join dirPath name) fileList rootDir ig
          excludeDirs excludeFiles in
      walkEntries rest dirPath fileList rootDir ig excludeDirs excludeFiles
    else
      walkEntries rest dirPath (fileList ++ [Path.join dirPath name]) rootDir ig
        excludeDirs excludeFiles.
Proof. intros H1 H2 H3 H4. simpl. by rewrite H1, H2, H3, H4. Qed.

(** The ignore test of the loop body. *)
Lemma walkEntries_ignored name entry rest dirPath fileList rootDir ig excludeDirs excludeFiles :
  ig (Path.relative rootDir (Path.join dirPath name)) = Ok true ->
  walkEntries ((name, entry) :: rest) dirPath fileList rootDir ig excludeDirs excludeFiles
  = walkEntries rest dirPath fileList rootDir ig excludeDirs excludeFiles.
Proof.
  intros Hig. simpl. rewrite Hig. simpl.
  by repeat (match goal with |- context [if ?b then _ else _] => destruct b end; try reflexivity).
Qed.

(** C2: an entry called [flatbrain] or [.git], a directory whose name is
    in [excludeDirs] and a regular file whose name is in [excludeFiles]
    are skipped whatever the [ignore] instance is, so whatever the
    [.gitignore] file holds and whatever it answers for the entry (an
    answer "not ignored", as a negation pattern gives, included): the
    instance is not even asked.  Only an entry that passes these tests is
    decided by the ignore patterns. *)
Theorem name_exclusion_overrides_ignore_patterns
    name entry rest dirPath fileList rootDir excludeDirs excludeFiles :
  (String.eqb name "flatbrain" = true \/ String.eqb name ".git" = true
   \/ (isDirectory entry = true /\ has excludeDirs name = true)
   \/ (isFile entry = true /\ has excludeFiles name = true) ->
   forall ig : Ignore,
     walkEntries ((name, entry) :: rest) dirPath fileList rootDir ig excludeDirs excludeFiles
     = walkEntries rest dirPath fileList rootDir ig excludeDirs excludeFiles)
  /\ (forall ig : Ignore,
        ig (Path.relative rootDir (Path.join dirPath name)) = Ok true ->
        walkEntries ((name, entry) :: rest) dirPath fileList rootDir ig excludeDirs excludeFiles
        = walkEntries rest dirPath fileList rootDir ig excludeDirs excludeFiles).
Proof.
  split.
  - intros H ig. destruct H as [H|[H|[[Hd Hx]|[Hf Hx]]]].
    + apply walkEntries_structural. by left.
    + apply walkEntries_structural. by right.
    + apply walkEntries_named. left. by rewrite Hd, Hx.
    + apply walkEntries_named. right. by rewrite Hf, Hx.
  - intros ig Hig. by apply walkEntries_ignored.
Qed.

Lemma name_exclusion_witness :
  has DEFAULT_LOCKFILES "yarn.lock" = true
  /\ walkEntries [("yarn.lock", File); ("b.txt", File)] "/r" [] "/r"
       (fun _ => Ok false) ∅ DEFAULT_LOCKFILES
     = walkEntries [("b.txt", File)] "/r" [] "/r" (fun _ => Ok false) ∅ DEFAULT_LOCKFILES
  /\ walkEntries [("yarn.lock", File); ("b.txt", File)] "/r" [] "/r"
       (fun _ => Err "path should be a relative string") ∅ DEFAULT_LOCKFILES
     = walkEntries [("b.txt", File)] "/r" [] "/r"
         (fun _ => Err "path should be a relative string") ∅ DEFAULT_LOCKFILES.
Proof.
  split; [reflexivity|].
  pose proof (proj1 (name_exclusion_overrides_ignore_patterns
    "yarn.lock" File [("b.txt", File)] "/r" [] "/r" ∅ DEFAULT_LOCKFILES)) as H.
  split; apply H; right; right; right; split; reflexivity.
Defined.

(** C10: the two name sets are consulted by kind.  A directory whose
    name is in [excludeFiles] only (the default lock file names included)
    is walked; a regular file whose name is in [excludeDirs] only is
    collected; an entry that is neither a regular file nor a directory is
    collected whatever the two sets hold. *)
Theorem name_exclusion_is_kind_sensitive
    name entry rest dirPath fileList rootDir ig excludeDirs excludeFiles :
  String.eqb name "flatbrain" = false -> String.eqb name ".git" = false ->
  ig (Path.relative rootDir (Path.join dirPath name)) = Ok false ->
  (isDirectory entry = true -> has excludeDirs name = false ->
   walkEntries ((name, entry) :: rest) dirPath fileList rootDir ig excludeDirs excludeFiles
   = let* fileList :=
       walkDirectory entry (Path.join dirPath name) fileList rootDir ig
         excludeDirs excludeFiles in
     walkEntries rest dirPath fileList rootDir ig excludeDirs excludeFiles)
  /\ (isFile entry = true -> has excludeFiles name = false ->
      walkEntries ((name, entry) :: rest) dirPath fileList rootDir ig excludeDirs excludeFiles
      = walkEntries rest dirPath (fileList ++ [Path.join dirPath name]) rootDir ig
          excludeDirs excludeFiles)
  /\ (isFile entry = false -> isDirectory entry = false ->
      walkEntries ((name, entry) :: rest) dirPath fileList rootDir ig excludeDirs excludeFiles
      = walkEntries rest dirPath (fileList ++ [Path.join dirPath name]) rootDir ig
          excludeDirs excludeFiles).
Proof.
  intros Hfb Hgit Hig. repeat split.
  - intros Hd Hx. rewrite walkEntries_passed; try assumption.
    + rewrite Hig. simpl. by rewrite Hd.
    + by rewrite Hx, andb_false_r.
    + by destruct entry.
  - intros Hf Hx. rewrite walkEntries_passed; try assumption.
    + rewrite Hig. simpl. by destruct entry.
    + by destruct entry.
    + by rewrite Hx, andb_false_r.
  - intros Hf Hd. rewrite walkEntries_passed; try assumption.
    + rewrite Hig. simpl. by rewrite Hd.
    + by rewrite Hd.
    + by rewrite Hf.
Qed.

Lemma kind_sensitive_witness :
  has DEFAULT_LOCKFILES "yarn.lock" = true
  /\ walkEntries [("yarn.lock", Dir [("notes.md", File)])] "/r" [] "/r"
       (ignore_nothing []) ∅ DEFAULT_LOCKFILES
     = Ok ["/r/yarn.lock/notes.md"]
  /\ has {[ "build" ]} "build" = true
  /\ walkEntries [("build", File)] "/r" [] "/r" (ignore_nothing []) {[ "build" ]} DEFAULT_LOCKFILES
     = Ok ["/r/build"]
  /\ walkEntries [("yarn.lock", Symlink)] "/r" [] "/r" (ignore_nothing [])
       {[ "yarn.lock" ]} DEFAULT_LOCKFILES
     = Ok ["/r/yarn.lock"].
Proof.
  split; [reflexivity|]. split.
  { rewrite (proj1 (name_exclusion_is_kind_sensitive "yarn.lock" (Dir [("notes.md", File)]) []
      "/r" [] "/r" (ignore_nothing []) ∅ DEFAULT_LOCKFILES eq_refl eq_refl eq_refl));
      reflexivity. }
  split; [reflexivity|]. split.
  { rewrite (proj1 (proj2 (name_exclusion_is_kind_sensitive "build" File []
      "/r" [] "/r" (ignore_nothing []) {[ "build" ]} DEFAULT_LOCKFILES eq_refl eq_refl eq_refl)));
      reflexivity. }
  rewrite (proj2 (proj2 (name_exclusion_is_kind_sensitive "yarn.lock" Symlink []
      "/r" [] "/r" (ignore_nothing []) {[ "yarn.lock" ]} DEFAULT_LOCKFILES eq_refl eq_refl eq_refl)));
      reflexivity.
Defined.

(** ** Excluded directories *)

Lemma inside_descend rootDir parents name file :
  resolved rootDir = true ->
  forallb name_ok parents = true -> name_ok name = true ->
  forall ig excludeDirs,
  walked_below rootDir ig excludeDirs rootDir file ->
  inside (Path.join (descend rootDir parents) name) file = true ->
  entered rootDir ig excludeDirs name (Path.join (descend rootDir parents) name).
Proof.
  intros (base & Hbase & ->)%resolved_inv Hparents Hname ig excludeDirs Hbelow Hinside.
  destruct (walked_below_absolute _ _ _ _ _ Hbelow base Hbase eq_refl)
    as (more & _ & Hmore & -> & Hentered).
  assert (Path.join (descend (Path.absolute base) parents) name
          = Path.absolute (base ++ parents ++ [name])) as Hjoin.
  { rewrite descend_absolute, join_absolute, <- app_assoc; try done.
    by rewrite forallb_app, Hbase, Hparents. }
  rewrite Hjoin in *.
  apply inside_absolute in Hinside as (post & Hpost & Heq).
  - rewrite <- !app_assoc in Heq. apply app_inv_head in Heq.
    exact (Hentered parents name post Heq Hpost).
  - by rewrite !forallb_app, Hbase, Hparents; simpl; rewrite Hname.
  - by rewrite forallb_app, Hbase, Hmore.
Qed.

(** C1: a directory entry [name] of the directory reached from the root
    through [parents] that is excluded, by its name being in
    [excludeDirs] or by the ignore patterns matching its root-relative
    path, is skipped by the loop whatever it holds, also when it cannot be
    listed at all: it is not opened.  No walked file lies inside it,
    whatever the names further down are; every file that [flatten] writes
    is the copy of a file outside it, and the artifact of [concat] is
    made of files outside it. *)
Theorem excluded_directory_is_not_opened
    ignore_add fs rootDir excludeDirs excludeFiles toTxtExtensions outputFile
    tree ig parents name :
  resolved rootDir = true ->
  root fs = Some tree -> names_ok tree = true ->
  loadGitignore ignore_add fs rootDir = Ok ig ->
  forallb name_ok parents = true -> name_ok name = true ->
  has excludeDirs name = true
  \/ ig (Path.relative rootDir (Path.join (descend rootDir parents) name)) = Ok true ->
  (forall entry rest fileList,
     isDirectory entry = true ->
     walkEntries ((name, entry) :: rest) (descend rootDir parents) fileList rootDir ig
       excludeDirs excludeFiles
     = walkEntries rest (descend rootDir parents) fileList rootDir ig excludeDirs excludeFiles)
  /\ (forall files,
        walkDirectory tree rootDir [] rootDir ig excludeDirs excludeFiles = Ok files ->
        forall file, In file files ->
        inside (Path.join (descend rootDir parents) name) file = false)
  /\ (forall written how dest content,
        flattenProject ignore_add fs rootDir excludeDirs excludeFiles toTxtExtensions
        = (written, how) ->
        written !! dest = Some content ->
        exists file,
          inside (Path.join (descend rootDir parents) name) file = false
          /\ dest = Path.join (Path.join (Path.join rootDir "flatbrain") "flattened")
                      (flattenedFileName toTxtExtensions file rootDir)
          /\ readFileSync fs file = Ok content)
  /\ (forall artifact,
        concatenateFiles ignore_add fs rootDir excludeDirs excludeFiles outputFile
        = Done artifact ->
        exists files,
          (forall file, In file files ->
             inside (Path.join (descend rootDir parents) name) file = false)
          /\ artifact = List.fold_left (concatenateFile fs rootDir) files EmptyString).
Proof.
  intros Hroot Hfs Htree Hload Hparents Hname Hexcluded.
  assert (forall files,
    walkDirectory tree rootDir [] rootDir ig excludeDirs excludeFiles = Ok files ->
    forall file, In file files ->
    inside (Path.join (descend rootDir parents) name) file = false) as Hwalked.
  { intros files Hwalk file Hin.
    destruct (inside _ file) eqn:Hinside; [exfalso | reflexivity].
    destruct (walkDirectory_sound _ _ _ _ _ Htree _ _ _ Hwalk _ Hin) as [[]|Hbelow].
    destruct (inside_descend rootDir parents name file Hroot Hparents Hname _ _ Hbelow Hinside)
      as (_ & _ & Hx & Hig).
    destruct Hexcluded; congruence. }
  split; [|split; [exact Hwalked|split]].
  - intros entry rest fileList Hdir.
    destruct Hexcluded as [Hx|Hig].
    + apply walkEntries_named. left. by rewrite Hdir, Hx.
    + by apply walkEntries_ignored.
  - intros written how dest content Hrun Hdest.
    destruct (flattenProject_inv _ _ _ _ _ _ _ _ _ _ Hrun Hdest)
      as (dir & ig' & files & Hfs' & _ & Hload' & Hwalk & <-).
    assert (dir = tree) as -> by congruence. assert (ig' = ig) as -> by congruence.
    apply copyFiles_lookup in Hdest as [Hempty|(file & Hin & Hd & Hread)].
    + by rewrite lookup_empty in Hempty.
    + exists file. split; [by eapply Hwalked|]. by split.
  - intros artifact Hrun.
    destruct (concatenateFiles_inv _ _ _ _ _ _ _ Hrun)
      as (dir & ig' & files & Hfs' & _ & Hload' & Hwalk & ->).
    assert (dir = tree) as -> by congruence. assert (ig' = ig) as -> by congruence.
    exists files. split; [by apply Hwalked | reflexivity].
Qed.

Lemma excluded_directory_witness :
  resolved "/r" = true
  /\ names_ok mixed_tree = true
  /\ has {[ "node_modules" ]} "node_modules" = true
  /\ walkDirectory mixed_tree "/r" [] "/r" (ignore_nothing []) {[ "node_modules" ]}
       DEFAULT_LOCKFILES
     = Ok ["/r/link"; "/r/b.txt"; "/r/yarn.lock/notes.md"]
  /\ inside "/r/node_modules" "/r/b.txt" = false.
Proof.
  repeat (split; [reflexivity|]).
  assert (has {[ "node_modules" ]} "node_modules" = true) as Hname by reflexivity.
  assert (walkDirectory mixed_tree "/r" [] "/r" (ignore_nothing []) {[ "node_modules" ]}
            DEFAULT_LOCKFILES
          = Ok ["/r/link"; "/r/b.txt"; "/r/yarn.lock/notes.md"]) as Hwalk by reflexivity.
  destruct (excluded_directory_is_not_opened ignore_nothing mixed_fs "/r" {[ "node_modules" ]}
              DEFAULT_LOCKFILES ∅ "all.txt" mixed_tree (ignore_nothing []) [] "node_modules"
              eq_refl eq_refl eq_refl eq_refl eq_refl eq_refl (or_introl Hname))
    as (_ & Hwalked & _).
  apply (Hwalked _ Hwalk). right. left. reflexivity.
Defined.

(** ** The concatenated artifact *)






(** ** Errors that are not recovered *)




(** ** Directories that cannot be listed, and symbolic links *)

Lemma unlistable_reached_isDirectory rootDir ig excludeDirs dirPath dir :
  unlistable_reached rootDir ig excludeDirs dirPath dir -> isDirectory dir = true.
Proof. by destruct 1. Qed.

(** An entry the walk goes into and fails in makes the whole loop fail,
    wherever the entry is in the listing. *)
Lemma walkEntries_abort rootDir ig excludeDirs excludeFiles dirPath entries name entry :
  In (name, entry) entries ->
  entered rootDir ig excludeDirs name (Path.join dirPath name) ->
  isDirectory entry = true ->
  (forall fileList, exists message,
     walkDirectory entry (Path.join dirPath name) fileList rootDir ig excludeDirs excludeFiles
     = Err message) ->
  forall fileList, exists message,
    walkEntries entries dirPath fileList rootDir ig excludeDirs excludeFiles = Err message.
Proof.
  intros Hin (Hfb & Hgit & Hx & Hig) Hdir Hfail.
  induction entries as [|[n e] rest IH]; [destruct Hin|]. intros fileList.
  destruct Hin as [[= -> ->]|Hin].
  - rewrite walkEntries_passed; try assumption.
    + rewrite Hig. simpl. rewrite Hdir.
      destruct (Hfail fileList) as [message ->]. by exists message.
    + by rewrite Hx, andb_false_r.
    + by destruct entry.
  - specialize (IH Hin). simpl.
    loop_tests n e excludeDirs excludeFiles ltac:(apply IH).
    destruct (ig (Path.relative rootDir (Path.join dirPath n))) as [[|]|m]; simpl;
      [apply IH| |by exists m].
    destruct (isDirectory e); [|apply IH].
    destruct (walkDirectory e _ _ _ _ _ _) as [inner|m]; simpl; [apply IH | by exists m].
Qed.

Lemma unlistable_reached_abort rootDir ig excludeDirs excludeFiles dirPath dir :
  unlistable_reached rootDir ig excludeDirs dirPath dir ->
  forall fileList, exists message,
    walkDirectory dir dirPath fileList rootDir ig excludeDirs excludeFiles = Err message.
Proof.
  induction 1 as [dirPath message | dirPath entries name entry Hin Hent Hreach IH];
    intros fileList.
  - by exists message.
  - rewrite walkDirectory_Dir.
    eapply walkEntries_abort; eauto using unlistable_reached_isDirectory.
Qed.

(** C7 (as the code has it): when the walk gets to a directory that
    cannot be listed, it fails, and both commands end in an uncaught
    exception: there is no file list and nothing is written.  A symbolic
    link is no failure: the loop collects it like a file, whatever the two
    name sets hold, and goes on. *)
Theorem unlistable_directory_aborts_and_symlink_is_collected
    rootDir excludeDirs excludeFiles :
  (forall ig dirPath dir fileList,
     unlistable_reached rootDir ig excludeDirs dirPath dir ->
     exists message,
       walkDirectory dir dirPath fileList rootDir ig excludeDirs excludeFiles = Err message)
  /\ (forall ignore_add fs toTxtExtensions outputFile dir,
        root fs = Some dir -> isDirectory dir = true ->
        (forall ig, loadGitignore ignore_add fs rootDir = Ok ig ->
                    unlistable_reached rootDir ig excludeDirs rootDir dir) ->
        (exists message,
           flattenProject ignore_add fs rootDir excludeDirs excludeFiles toTxtExtensions
           = (∅, Uncaught message))
        /\ (exists message,
              concatenateFiles ignore_add fs rootDir excludeDirs excludeFiles outputFile
              = Uncaught message))
  /\ (forall ig dirPath name rest fileList,
        String.eqb name "flatbrain" = false -> String.eqb name ".git" = false ->
        ig (Path.relative rootDir (Path.join dirPath name)) = Ok false ->
        walkEntries ((name, Symlink) :: rest) dirPath fileList rootDir ig excludeDirs excludeFiles
        = walkEntries rest dirPath (fileList ++ [Path.join dirPath name]) rootDir ig
            excludeDirs excludeFiles).
Proof.
  split; [|split].
  - intros ig dirPath dir fileList Hreach. by eapply unlistable_reached_abort.
  - intros ignore_add fs toTxtExtensions outputFile dir Hroot Hdir Hreach.
    unfold flattenProject, concatenateFiles. rewrite Hroot, Hdir. simpl.
    destruct (loadGitignore ignore_add fs rootDir) as [ig|thrown] eqn:Hload.
    + destruct (unlistable_reached_abort _ _ _ excludeFiles _ _ (Hreach ig eq_refl) [])
        as [message ->].
      split; by exists message.
    + split; by exists thrown.
  - intros ig dirPath name rest fileList Hfb Hgit Hig.
    rewrite walkEntries_passed; try assumption; try reflexivity.
    by rewrite Hig.
Qed.

Lemma unlistable_directory_witness :
  root mixed_fs = Some mixed_tree
  /\ unlistable_reached "/r" (ignore_nothing []) ∅ "/r" mixed_tree
  /\ (exists message,
        concatenateFiles ignore_nothing mixed_fs "/r" ∅ DEFAULT_LOCKFILES "all.txt"
        = Uncaught message)
  /\ walkEntries [("link", Symlink)] "/r" [] "/r" (ignore_nothing []) ∅ DEFAULT_LOCKFILES
     = Ok ["/r/link"].
Proof.
  assert (unlistable_reached "/r" (ignore_nothing []) ∅ "/r" mixed_tree) as Hreach.
  { apply (unlistable_deeper _ _ _ _ _ "node_modules"
             (Unlistable "EACCES: permission denied, scandir")).
    - right. right. left. reflexivity.
    - repeat split; reflexivity.
    - apply unlistable_here. }
  split; [reflexivity|]. split; [exact Hreach|].
  destruct (unlistable_directory_aborts_and_symlink_is_collected "/r" ∅ DEFAULT_LOCKFILES)
    as (_ & Hcommands & Hlink).
  split.
  - apply (Hcommands ignore_nothing mixed_fs ∅ "all.txt" mixed_tree eq_refl eq_refl).
    intros ig [= <-]. exact Hreach.
  - rewrite (Hlink (ignore_nothing []) "/r" "link" [] [] eq_refl eq_refl eq_refl). reflexivity.
Defined.

(** C7 as stated fails: the listing of [/r] holds a symbolic link, the
    walk returns its file list with the link in it, and [concat] runs to
    its end. *)
Lemma symlink_does_not_abort_the_walk :
  isSymbolicLink Symlink = true
  /\ walkDirectory (Dir [("link", Symlink); ("b.txt", File)]) "/r" [] "/r"
       (ignore_nothing []) ∅ DEFAULT_LOCKFILES
     = Ok ["/r/link"; "/r/b.txt"]
  /\ concatenateFiles ignore_nothing
       (mk_filesystem (Some (Dir [("link", Symlink); ("b.txt", File)])) (fun _ => false)
          mixed_read)
       "/r" ∅ DEFAULT_LOCKFILES "all.txt"
     = Done (nl +:+ "=== link ===" +:+ nl
             +:+ "[Error reading file: EISDIR: illegal operation on a directory, read]" +:+ nl
             +:+ nl +:+ "=== b.txt ===" +:+ nl +:+ "world" +:+ nl).
Proof. repeat split; reflexivity. Qed.

(** ** Collisions of flattened names *)

(** C5 (fails on the code): the two files of [caret_tree] are distinct
    walked files with the same flattened name, and the copy of the second
    overwrites the copy of the first in [flatbrain/flattened]. *)
Theorem flattened_names_collide :
  walkDirectory caret_tree "/r" [] "/r" (ignore_nothing []) ∅ DEFAULT_LOCKFILES
  = Ok ["/r/a^b.txt"; "/r/a/b.txt"]
  /\ "/r/a^b.txt" <> "/r/a/b.txt"
  /\ getFlattenedFileName "/r/a^b.txt" "/r" = "a^b.txt"
  /\ getFlattenedFileName "/r/a/b.txt" "/r" = "a^b.txt"
  /\ flattenProject ignore_nothing caret_fs "/r" ∅ DEFAULT_LOCKFILES ∅
     = ({[ "/r/flatbrain/flattened/a^b.txt" := "second" ]}, Done tt).
Proof. repeat split; try reflexivity. discriminate. Qed.

(** ** Lock files *)

Lemma has_union (a b : gset string) x : has (a ∪ b) x = has a x || has b x.
Proof.
  unfold has. apply eq_true_iff_eq.
  rewrite orb_true_iff, !bool_decide_eq_true. set_solver.
Qed.

Lemma without_lockfiles_Dir entries :
  without_lockfiles (Dir entries) = Dir (entries_without_lockfiles entries).
Proof. reflexivity. Qed.

Lemma isDirectory_without_lockfiles n : isDirectory (without_lockfiles n) = isDirectory n.
Proof. by destruct n. Qed.

Lemma isFile_without_lockfiles n : isFile (without_lockfiles n) = isFile n.
Proof. by destruct n. Qed.

(** A regular file with an excluded name does not change the walk. *)
Lemma walk_without_lockfiles rootDir ig excludeDirs excludeFiles dir :
  (forall name, has DEFAULT_LOCKFILES name = true -> has excludeFiles name = true) ->
  forall dirPath fileList,
    walkDirectory (without_lockfiles dir) dirPath fileList rootDir ig excludeDirs excludeFiles
    = walkDirectory dir dirPath fileList rootDir ig excludeDirs excludeFiles.
Proof.
  intros Hsub. induction dir as [|entries IH| | |] using node_ind; try reflexivity.
  intros dirPath fileList. rewrite without_lockfiles_Dir, !walkDirectory_Dir.
  revert fileList. induction IH as [|[name entry] rest Hentry _ IHrest]; intros fileList; [reflexivity|].
  simpl entries_without_lockfiles.
  destruct (isFile entry && has DEFAULT_LOCKFILES name) eqn:Hlock.
  - apply andb_prop in Hlock as [Hfile Hname]. rewrite IHrest. symmetry.
    apply walkEntries_named. right. by rewrite Hfile, (Hsub _ Hname).
  - simpl in *. rewrite isDirectory_without_lockfiles, isFile_without_lockfiles, Hentry.
    loop_tests name entry excludeDirs excludeFiles ltac:(apply IHrest).
    destruct (ig (Path.relative rootDir (Path.join dirPath name))) as [[|]|m]; simpl;
      [apply IHrest| |reflexivity].
    destruct (isDirectory entry); [|apply IHrest].
    destruct (walkDirectory entry _ _ _ _ _ _); simpl; [apply IHrest | reflexivity].
Qed.

Lemma flattenProject_hide_lockfiles ignore_add fs rootDir excludeDirs excludeFiles toTxt :
  (forall name, has DEFAULT_LOCKFILES name = true -> has excludeFiles name = true) ->
  flattenProject ignore_add (hide_lockfiles fs) rootDir excludeDirs excludeFiles toTxt
  = flattenProject ignore_add fs rootDir excludeDirs excludeFiles toTxt.
Proof.
  intros Hsub. unfold flattenProject, hide_lockfiles. simpl.
  destruct (root fs) as [dir|]; simpl; [|reflexivity].
  rewrite isDirectory_without_lockfiles. destruct (isDirectory dir); simpl; [|reflexivity].
  change (loadGitignore ignore_add (mk_filesystem _ (existsSync fs) (readFileSync fs)) rootDir)
    with (loadGitignore ignore_add fs rootDir).
  destruct (loadGitignore ignore_add fs rootDir) as [ig|]; [|reflexivity].
  rewrite walk_without_lockfiles by exact Hsub.
  destruct (walkDirectory dir _ _ _ _ _ _) as [files|]; [|reflexivity].
  assert (forall written,
    copyFiles (mk_filesystem (Some (without_lockfiles dir)) (existsSync fs) (readFileSync fs))
      files rootDir (Path.join (Path.join rootDir "flatbrain") "flattened") toTxt written
    = copyFiles fs files rootDir (Path.join (Path.join rootDir "flatbrain") "flattened")
        toTxt written) as ->; [|reflexivity].
  induction files as [|file rest IH]; intros written; simpl; [reflexivity|].
  destruct (readFileSync fs file); [apply IH | reflexivity].
Qed.

Lemma concatenateFiles_hide_lockfiles ignore_add fs rootDir excludeDirs excludeFiles outputFile :
  (forall name, has DEFAULT_LOCKFILES name = true -> has excludeFiles name = true) ->
  concatenateFiles ignore_add (hide_lockfiles fs) rootDir excludeDirs excludeFiles outputFile
  = concatenateFiles ignore_add fs rootDir excludeDirs excludeFiles outputFile.
Proof.
  intros Hsub. unfold concatenateFiles, hide_lockfiles. simpl.
  destruct (root fs) as [dir|]; simpl; [|reflexivity].
  rewrite isDirectory_without_lockfiles. destruct (isDirectory dir); simpl; [|reflexivity].
  change (loadGitignore ignore_add (mk_filesystem _ (existsSync fs) (readFileSync fs)) rootDir)
    with (loadGitignore ignore_add fs rootDir).
  destruct (loadGitignore ignore_add fs rootDir) as [ig|]; [|reflexivity].
  rewrite walk_without_lockfiles by exact Hsub.
  destruct (walkDirectory dir _ _ _ _ _ _) as [files|]; reflexivity.
Qed.

(** C8: whatever the options are, so also with no exclusion given, both
    commands skip every regular file called [yarn.lock],
    [package-lock.json] or [pnpm-lock.yaml] in every directory of the
    walk, and their results are those of the tree in which no such file
    exists at any depth. *)
Theorem default_lockfiles_are_excluded ignore_add fs directory :
  (forall name, In name ["yarn.lock"; "package-lock.json"; "pnpm-lock.yaml"] ->
     has DEFAULT_LOCKFILES name = true)
  /\ (forall name user rest dirPath fileList rootDir ig excludeDirs,
        has DEFAULT_LOCKFILES name = true ->
        walkEntries ((name, File) :: rest) dirPath fileList rootDir ig excludeDirs
          (DEFAULT_LOCKFILES ∪ list_to_set user)
        = walkEntries rest dirPath fileList rootDir ig excludeDirs
            (DEFAULT_LOCKFILES ∪ list_to_set user))
  /\ (forall options,
        flatten_action ignore_add fs directory options
        = flatten_action ignore_add (hide_lockfiles fs) directory options)
  /\ (forall options,
        concat_action ignore_add fs directory options
        = concat_action ignore_add (hide_lockfiles fs) directory options).
Proof.
  assert (forall user name, has DEFAULT_LOCKFILES name = true ->
            has (DEFAULT_LOCKFILES ∪ list_to_set user) name = true) as Hsub.
  { intros user name Hname. by rewrite has_union, Hname. }
  split; [|split; [|split]].
  - intros name [<-|[<-|[<-|[]]]]; reflexivity.
  - intros name user rest dirPath fileList rootDir ig excludeDirs Hname.
    apply walkEntries_named. right. simpl. by apply Hsub.
  - intros options. unfold flatten_action. symmetry.
    apply flattenProject_hide_lockfiles, Hsub.
  - intros options. unfold concat_action. symmetry.
    apply concatenateFiles_hide_lockfiles, Hsub.
Qed.

Lemma default_lockfiles_witness :
  has DEFAULT_LOCKFILES "pnpm-lock.yaml" = true
  /\ walkEntries [("pnpm-lock.yaml", File); ("b.txt", File)] "/r/pkg" [] "/r"
       (ignore_nothing []) (list_to_set []) (DEFAULT_LOCKFILES ∪ list_to_set [])
     = Ok ["/r/pkg/b.txt"].
Proof.
  split; [reflexivity|].
  rewrite (proj1 (proj2 (default_lockfiles_are_excluded ignore_nothing mixed_fs "/r"))
             "pnpm-lock.yaml" [] [("b.txt", File)] "/r/pkg" [] "/r" (ignore_nothing [])
             (list_to_set []) eq_refl).
  reflexivity.
Defined.

(** * Further properties of the walk *)

(** ** The accumulator and the order of the listing *)

Lemma bind_Ok {A B} (m : result A) (k : A -> result B) b :
  (let* a := m in k a) = Ok b -> exists a, m = Ok a /\ k a = Ok b.
Proof. destruct m as [a|]; simpl; [eauto | discriminate]. Qed.

Lemma walkEntries_accumulates rootDir ig excludeDirs excludeFiles entries :
  Forall (fun e => forall dirPath fileList,
    walkDirectory (snd e) dirPath fileList rootDir ig excludeDirs excludeFiles
    = let* files := walkDirectory (snd e) dirPath [] rootDir ig excludeDirs excludeFiles in
      Ok (fileList ++ files)) entries ->
  forall dirPath fileList,
    walkEntries entries dirPath fileList rootDir ig excludeDirs excludeFiles
    = let* files := walkEntries entries dirPath [] rootDir ig excludeDirs excludeFiles in
      Ok (fileList ++ files).
Proof.
  induction 1 as [|[name entry] rest Hentry _ IH]; intros dirPath fileList.
  - simpl. by rewrite app_nil_r.
  - simpl in *.
    loop_tests name entry excludeDirs excludeFiles ltac:(apply IH).
    destruct (ig (Path.relative rootDir (Path.join dirPath name))) as [[|]|]; simpl;
      [apply IH| |reflexivity].
    destruct (isDirectory entry).
    + rewrite Hentry.
      destruct (walkDirectory entry _ [] _ _ _ _) as [inner|]; simpl; [|reflexivity].
      rewrite (IH _ (fileList ++ inner)), (IH _ inner).
      destruct (walkEntries rest dirPath [] _ _ _ _); simpl; [|reflexivity].
      by rewrite app_assoc.
    + rewrite (IH _ (fileList ++ _)), (IH _ [_]).
      destruct (walkEntries rest dirPath [] _ _ _ _); simpl; [|reflexivity].
      by rewrite <- app_assoc.
Qed.

Lemma walkDirectory_accumulates rootDir ig excludeDirs excludeFiles dir :
  forall dirPath fileList,
    walkDirectory dir dirPath fileList rootDir ig excludeDirs excludeFiles
    = let* files := walkDirectory dir dirPath [] rootDir ig excludeDirs excludeFiles in
      Ok (fileList ++ files).
Proof.
  induction dir as [|entries IH| | |] using node_ind; intros dirPath fileList;
    try reflexivity.
  rewrite !walkDirectory_Dir. by apply walkEntries_accumulates.
Qed.

Lemma walkEntries_accumulate rootDir ig excludeDirs excludeFiles entries dirPath fileList :
  walkEntries entries dirPath fileList rootDir ig excludeDirs excludeFiles
  = let* files := walkEntries entries dirPath [] rootDir ig excludeDirs excludeFiles in
    Ok (fileList ++ files).
Proof.
  apply walkEntries_accumulates. apply List.Forall_forall.
  intros e _. apply walkDirectory_accumulates.
Qed.

Lemma walkEntries_app rootDir ig excludeDirs excludeFiles before after dirPath fileList :
  walkEntries (before ++ after) dirPath fileList rootDir ig excludeDirs excludeFiles
  = let* fileList := walkEntries before dirPath fileList rootDir ig excludeDirs excludeFiles in
    walkEntries after dirPath fileList rootDir ig excludeDirs excludeFiles.
Proof.
  revert fileList. induction before as [|[name entry] rest IH]; intros fileList; [reflexivity|].
  simpl.
  loop_tests name entry excludeDirs excludeFiles ltac:(apply IH).
  destruct (ig (Path.relative rootDir (Path.join dirPath name))) as [[|]|]; simpl;
    [apply IH| |reflexivity].
  destruct (isDirectory entry); [|apply IH].
  destruct (walkDirectory entry _ _ _ _ _ _); simpl; [apply IH | reflexivity].
Qed.

(** X1: the walk only appends to the list it is given: the walk of a
    directory with the accumulator [fileList] fails exactly when the walk
    with the empty accumulator fails, and otherwise returns [fileList]
    followed by the files that walk returns. *)
Theorem walk_appends_to_the_accumulator
    dir dirPath fileList rootDir ig excludeDirs excludeFiles :
  walkDirectory dir dirPath fileList rootDir ig excludeDirs excludeFiles
  = let* files := walkDirectory dir dirPath [] rootDir ig excludeDirs excludeFiles in
    Ok (fileList ++ files).
Proof. apply walkDirectory_accumulates. Qed.

(** X2: the files come in the order of the listing: the walk of a
    listing is the walk of its first part followed by the walk of the
    rest, and a failure in the first part is the failure of the whole. *)
Theorem walk_follows_the_listing_order
    before after dirPath rootDir ig excludeDirs excludeFiles :
  walkDirectory (Dir (before ++ after)) dirPath [] rootDir ig excludeDirs excludeFiles
  = let* first := walkDirectory (Dir before) dirPath [] rootDir ig excludeDirs excludeFiles in
    let* second := walkDirectory (Dir after) dirPath [] rootDir ig excludeDirs excludeFiles in
    Ok (first ++ second).
Proof.
  rewrite !walkDirectory_Dir, walkEntries_app.
  destruct (walkEntries before _ _ _ _ _ _) as [first|]; simpl; [|reflexivity].
  apply walkEntries_accumulate.
Qed.

(** ** Exactly the collected files *)

Lemma collects_nil rootDir ig excludeDirs excludeFiles dirPath file :
  ~ collects rootDir ig excludeDirs excludeFiles dirPath (Dir []) file.
Proof. inversion 1; subst; contradiction. Qed.

Lemma collects_cons rootDir ig excludeDirs excludeFiles dirPath name entry rest file :
  collects rootDir ig excludeDirs excludeFiles dirPath (Dir ((name, entry) :: rest)) file
  <-> (file = Path.join dirPath name
       /\ isDirectory entry = false
       /\ String.eqb name "flatbrain" = false /\ String.eqb name ".git" = false
       /\ isFile entry && has excludeFiles name = false
       /\ ig (Path.relative rootDir (Path.join dirPath name)) = Ok false)
      \/ (entered rootDir ig excludeDirs name (Path.join dirPath name)
          /\ collects rootDir ig excludeDirs excludeFiles (Path.join dirPath name) entry file)
      \/ collects rootDir ig excludeDirs excludeFiles dirPath (Dir rest) file.
Proof.
  split.
  - inversion 1 as [d es n e Hin Hdir Hfb Hgit Hx Hig | d es n e f Hin Hent Hsub]; subst.
    + destruct Hin as [[= -> ->]|Hin]; [by left|].
      right. right. by eapply collects_here.
    + destruct Hin as [[= -> ->]|Hin]; [by right; left|].
      right. right. by eapply collects_deeper.
  - intros [(-> & Hdir & Hfb & Hgit & Hx & Hig)|[[Hent Hsub]|Hrest]].
    + eapply collects_here; eauto. by left.
    + eapply collects_deeper; eauto. by left.
    + inversion Hrest as [d es n e Hin Hdir Hfb Hgit Hx Hig | d es n e f Hin Hent Hsub]; subst.
      * eapply collects_here; eauto. by right.
      * eapply collects_deeper; eauto. by right.
Qed.

Lemma collects_isDirectory rootDir ig excludeDirs excludeFiles dirPath dir file :
  collects rootDir ig excludeDirs excludeFiles dirPath dir file -> isDirectory dir = true.
Proof. by destruct 1. Qed.

Lemma walkEntries_collects rootDir ig excludeDirs excludeFiles entries :
  Forall (fun e => forall dirPath fileList files,
    walkDirectory (snd e) dirPath fileList rootDir ig excludeDirs excludeFiles = Ok files ->
    forall file, In file files
      <-> In file fileList
          \/ collects rootDir ig excludeDirs excludeFiles dirPath (snd e) file) entries ->
  forall dirPath fileList files,
    walkEntries entries dirPath fileList rootDir ig excludeDirs excludeFiles = Ok files ->
    forall file, In file files
      <-> In file fileList
          \/ collects rootDir ig excludeDirs excludeFiles dirPath (Dir entries) file.
Proof.
  induction 1 as [|[name entry] rest Hentry _ IH]; intros dirPath fileList files Hwalk file.
  - simpl in Hwalk. injection Hwalk as <-. split; [by left|].
    intros [|H]; [done|]. by apply collects_nil in H.
  - rewrite collects_cons. simpl in Hentry, Hwalk. unfold entered.
    destruct (String.eqb name "flatbrain") eqn:Hfb;
      [rewrite (IH _ _ _ Hwalk); intuition congruence|].
    destruct (String.eqb name ".git") eqn:Hgit;
      [rewrite (IH _ _ _ Hwalk); intuition congruence|].
    destruct (isDirectory entry && has excludeDirs name) eqn:Hxd.
    { rewrite (IH _ _ _ Hwalk). apply andb_prop in Hxd as [Hd Hx].
      intuition congruence. }
    destruct (isFile entry && has excludeFiles name) eqn:Hxf.
    { rewrite (IH _ _ _ Hwalk). split; [tauto|].
      intros [?|[(_ & _ & _ & _ & ? & _)|[[_ Hsub]|?]]]; try tauto; try congruence.
      apply collects_isDirectory in Hsub. destruct entry; discriminate. }
    destruct (ig (Path.relative rootDir (Path.join dirPath name))) as [[|]|] eqn:Hig;
      simpl in Hwalk; [rewrite (IH _ _ _ Hwalk); intuition congruence| |discriminate].
    destruct (isDirectory entry) eqn:Hdir.
    + apply bind_Ok in Hwalk as (inner & Hinner & Hwalk).
      rewrite (IH _ _ _ Hwalk), (Hentry _ _ _ Hinner). simpl in Hxd.
      split; [tauto|]. intros [?|[(_ & ? & _)|[[_ ?]|?]]]; try tauto. congruence.
    + rewrite (IH _ _ _ Hwalk), in_app_iff. simpl.
      split.
      * intros [[?|[<-|[]]]|?]; tauto.
      * intros [?|[(-> & _)|[[_ Hsub]|?]]]; try tauto.
        apply collects_isDirectory in Hsub. congruence.
Qed.

Lemma walkDirectory_collects rootDir ig excludeDirs excludeFiles dir :
  forall dirPath fileList files,
    walkDirectory dir dirPath fileList rootDir ig excludeDirs excludeFiles = Ok files ->
    forall file, In file files
      <-> In file fileList \/ collects rootDir ig excludeDirs excludeFiles dirPath dir file.
Proof.
  induction dir as [|entries IH| | |] using node_ind; intros dirPath fileList files;
    try discriminate.
  rewrite walkDirectory_Dir. by apply walkEntries_collects.
Qed.

(** X3: when the walk succeeds, its list holds exactly the collected
    files: the entries that are no directories, are not called
    [flatbrain] or [.git], are not regular files with an excluded name and
    are not ignored, in the root and in every directory the walk goes
    into.  So a file that no rule excludes, in directories that no rule
    excludes, is never left out. *)
Theorem walk_returns_exactly_the_collected_files
    dir rootDir ig excludeDirs excludeFiles files :
  walkDirectory dir rootDir [] rootDir ig excludeDirs excludeFiles = Ok files ->
  forall file,
    In file files <-> collects rootDir ig excludeDirs excludeFiles rootDir dir file.
Proof.
  intros Hwalk file. rewrite (walkDirectory_collects _ _ _ _ _ _ _ _ Hwalk). simpl. tauto.
Qed.

Lemma walk_exact_witness :
  walkDirectory two_files_tree "/r" [] "/r" (ignore_nothing []) ∅ DEFAULT_LOCKFILES
  = Ok ["/r/src/a.js"; "/r/b.txt"]
  /\ collects "/r" (ignore_nothing []) ∅ DEFAULT_LOCKFILES "/r" two_files_tree "/r/src/a.js".
Proof.
  assert (walkDirectory two_files_tree "/r" [] "/r" (ignore_nothing []) ∅ DEFAULT_LOCKFILES
          = Ok ["/r/src/a.js"; "/r/b.txt"]) as Hwalk by reflexivity.
  split; [exact Hwalk|].
  apply (walk_returns_exactly_the_collected_files _ _ _ _ _ _ Hwalk). left. reflexivity.
Defined.

(** ** When the walk succeeds *)

Lemma walkEntries_total rootDir ig excludeDirs excludeFiles entries :
  (forall path, exists answer, ig path = Ok answer) ->
  Forall (fun e => isDirectory (snd e) = true -> listable (snd e) = true ->
    forall dirPath fileList, exists files,
      walkDirectory (snd e) dirPath fileList rootDir ig excludeDirs excludeFiles = Ok files)
    entries ->
  entries_listable entries = true ->
  forall dirPath fileList, exists files,
    walkEntries entries dirPath fileList rootDir ig excludeDirs excludeFiles = Ok files.
Proof.
  intros Hig. induction 1 as [|[name entry] rest Hentry _ IH]; intros Hlist dirPath fileList.
  - by exists fileList.
  - simpl in Hlist. apply andb_prop in Hlist as [Hsub Hrest]. specialize (IH Hrest dirPath).
    simpl in *.
    loop_tests name entry excludeDirs excludeFiles ltac:(apply IH).
    destruct (Hig (Path.relative rootDir (Path.join dirPath name))) as [[|] ->]; simpl;
      [apply IH|].
    destruct (isDirectory entry) eqn:Hdir; [|apply IH].
    destruct (Hentry eq_refl Hsub (Path.join dirPath name) fileList) as [inner ->]. simpl.
    apply IH.
Qed.

Lemma walkDirectory_total rootDir ig excludeDirs excludeFiles dir :
  (forall path, exists answer, ig path = Ok answer) ->
  isDirectory dir = true -> listable dir = true ->
  forall dirPath fileList, exists files,
    walkDirectory dir dirPath fileList rootDir ig excludeDirs excludeFiles = Ok files.
Proof.
  intros Hig. induction dir as [|entries IH| | |] using node_ind; try discriminate.
  intros _ Hlist dirPath fileList. rewrite walkDirectory_Dir.
  by apply walkEntries_total.
Qed.

(** X4: the walk has no failure of its own: when every directory of the
    tree can be listed and the [ignore] instance answers for every path,
    the walk returns a file list, and then [concat] finishes whatever the
    files hold. *)
Theorem walk_succeeds_on_a_listable_tree
    ignore_add fs rootDir excludeDirs excludeFiles outputFile dir :
  root fs = Some dir -> isDirectory dir = true -> listable dir = true ->
  (forall lines path, exists answer, ignore_add lines path = Ok answer) ->
  (existsSync fs (Path.join rootDir ".gitignore") = true ->
   exists content, readFileSync fs (Path.join rootDir ".gitignore") = Ok content) ->
  (forall lines, exists files,
     walkDirectory dir rootDir [] rootDir (ignore_add lines) excludeDirs excludeFiles
     = Ok files)
  /\ exists artifact,
       concatenateFiles ignore_add fs rootDir excludeDirs excludeFiles outputFile
       = Done artifact.
Proof.
  intros Hroot Hdir Hlist Hig Hread. split.
  - intros lines. by apply walkDirectory_total.
  - unfold concatenateFiles, loadGitignore. rewrite Hroot, Hdir. simpl.
    destruct (existsSync fs _).
    + destruct (Hread eq_refl) as [content ->]. simpl.
      destruct (walkDirectory_total rootDir (ignore_add (JS.split newline content))
                  excludeDirs excludeFiles dir (Hig _) Hdir Hlist rootDir []) as [files ->].
      eauto.
    + destruct (walkDirectory_total rootDir (ignore_add []) excludeDirs excludeFiles dir
                  (Hig _) Hdir Hlist rootDir []) as [files ->].
      eauto.
Qed.

Lemma walk_succeeds_witness :
  listable two_files_tree = true
  /\ exists artifact,
       concatenateFiles ignore_nothing two_files "/r" ∅ DEFAULT_LOCKFILES "all.txt"
       = Done artifact.
Proof.
  split; [reflexivity|].
  apply (walk_succeeds_on_a_listable_tree ignore_nothing two_files "/r" ∅ DEFAULT_LOCKFILES
           "all.txt" two_files_tree eq_refl eq_refl eq_refl).
  - intros lines path. by exists false.
  - discriminate.
Defined.

(** ** The names on the way to a walked file *)

Lemma entries_ok_In name entry entries :
  entries_ok entries = true -> In (name, entry) entries ->
  name_ok name = true /\ names_ok entry = true.
Proof.
  induction entries as [|[n e] rest IH]; intros Hok Hin; [destruct Hin|].
  simpl in Hok. apply andb_prop in Hok as [[Hn He]%andb_prop Hrest].
  destruct Hin as [[= -> ->]|Hin]; [by split | by apply IH].
Qed.

Lemma entries_carets_free_In name entry entries :
  entries_carets_free entries = true -> In (name, entry) entries ->
  caret_free name = true /\ carets_free entry = true.
Proof.
  induction entries as [|[n e] rest IH]; intros Hok Hin; [destruct Hin|].
  simpl in Hok. apply andb_prop in Hok as [[Hn He]%andb_prop Hrest].
  destruct Hin as [[= -> ->]|Hin]; [by split | by apply IH].
Qed.

Lemma String_eqb_false_neq a b : String.eqb a b = false -> a <> b.
Proof. intros H ->. by rewrite String.eqb_refl in H. Qed.

(** A collected file is reached from the directory through names of the
    tree, none of which is [flatbrain] or [.git]. *)
Lemma collects_names rootDir ig excludeDirs excludeFiles dirPath dir file :
  collects rootDir ig excludeDirs excludeFiles dirPath dir file ->
  names_ok dir = true ->
  exists more,
    more <> [] /\ forallb name_ok more = true /\ file = descend dirPath more
    /\ ~ In "flatbrain" more /\ ~ In ".git" more
    /\ (carets_free dir = true -> forallb caret_free more = true).
Proof.
  induction 1 as [dirPath entries name entry Hin Hdir Hfb Hgit Hx Hig
                 | dirPath entries name entry file Hin (Hfb & Hgit & _) _ IH];
    intros Hok; rewrite names_ok_Dir in Hok;
    destruct (entries_ok_In _ _ _ Hok Hin) as [Hname Hsub];
    apply String_eqb_false_neq in Hfb, Hgit.
  - exists [name]. repeat split; try done.
    + by simpl; rewrite Hname.
    + by intros [|[]].
    + by intros [|[]].
    + intros Hc. change (entries_carets_free entries = true) in Hc.
      destruct (entries_carets_free_In _ _ _ Hc Hin) as [Hn _]. simpl. by rewrite Hn.
  - destruct (IH Hsub) as (more & Hne & Hmore & -> & Hnfb & Hngit & Hcaret).
    exists (name :: more). repeat split; try done.
    + by simpl; rewrite Hname.
    + by intros [|].
    + by intros [|].
    + intros Hc. change (entries_carets_free entries = true) in Hc.
      destruct (entries_carets_free_In _ _ _ Hc Hin) as [Hn Hs]. simpl.
      by rewrite Hn, (Hcaret Hs).
Qed.

(** X5: no walked file is, or lies below, an entry called [flatbrain] or
    [.git], at whatever depth: the segments of its root-relative path are
    names of the tree that lead from the root to the file, and neither
    name is among them.  So the output of an earlier run is never taken in
    again. *)
Theorem walked_file_avoids_flatbrain_and_git
    dir rootDir ig excludeDirs excludeFiles files file :
  resolved rootDir = true -> names_ok dir = true ->
  walkDirectory dir rootDir [] rootDir ig excludeDirs excludeFiles = Ok files ->
  In file files ->
  Path.segments (Path.relative rootDir file) <> []
  /\ file = descend rootDir (Path.segments (Path.relative rootDir file))
  /\ ~ In "flatbrain" (Path.segments (Path.relative rootDir file))
  /\ ~ In ".git" (Path.segments (Path.relative rootDir file)).
Proof.
  intros (base & Hbase & ->)%resolved_inv Hok Hwalk Hin.
  apply (walkDirectory_collects _ _ _ _ _ _ _ _ Hwalk) in Hin as [[]|Hcollects].
  destruct (collects_names _ _ _ _ _ _ _ Hcollects Hok)
    as (more & Hne & Hmore & -> & Hfb & Hgit & _).
  rewrite descend_absolute, relative_absolute, segments_concat by assumption.
  by rewrite descend_absolute.
Qed.

Lemma avoids_flatbrain_witness :
  resolved "/r" = true /\ names_ok mixed_tree = true
  /\ ~ In "flatbrain" (Path.segments (Path.relative "/r" "/r/yarn.lock/notes.md")).
Proof.
  split; [reflexivity|]. split; [reflexivity|].
  assert (walkDirectory mixed_tree "/r" [] "/r" (ignore_nothing []) {[ "node_modules" ]}
            DEFAULT_LOCKFILES
          = Ok ["/r/link"; "/r/b.txt"; "/r/yarn.lock/notes.md"]) as Hwalk by reflexivity.
  apply (walked_file_avoids_flatbrain_and_git mixed_tree "/r" (ignore_nothing [])
           {[ "node_modules" ]} DEFAULT_LOCKFILES _ "/r/yarn.lock/notes.md"
           eq_refl eq_refl Hwalk).
  right. right. left. reflexivity.
Defined.

(** ** No file twice *)

Lemma absolute_inj names names' :
  forallb name_ok names = true -> forallb name_ok names' = true ->
  Path.absolute names = Path.absolute names' -> names = names'.
Proof.
  intros H H' Heq. apply (f_equal Path.segments) in Heq.
  by rewrite !segments_absolute in Heq.
Qed.

Lemma walkEntries_cons_split rootDir ig excludeDirs excludeFiles e rest dirPath :
  walkEntries (e :: rest) dirPath [] rootDir ig excludeDirs excludeFiles
  = let* first := walkEntries [e] dirPath [] rootDir ig excludeDirs excludeFiles in
    let* others := walkEntries rest dirPath [] rootDir ig excludeDirs excludeFiles in
    Ok (first ++ others).
Proof.
  change (e :: rest) with ([e] ++ rest). rewrite walkEntries_app.
  destruct (walkEntries [e] _ _ _ _ _ _) as [first|]; simpl; [|reflexivity].
  apply walkEntries_accumulate.
Qed.

(** A file collected from a listing starts, below the directory, with a
    name of the listing. *)
Lemma collects_head rootDir ig excludeDirs excludeFiles base entries file :
  collects rootDir ig excludeDirs excludeFiles (Path.absolute base) (Dir entries) file ->
  forallb name_ok base = true -> entries_ok entries = true ->
  exists name more,
    In name (List.map fst entries) /\ forallb name_ok (name :: more) = true
    /\ file = Path.absolute (base ++ name :: more).
Proof.
  intros Hc Hbase Hok.
  inversion Hc as [d es name entry Hin Hdir Hfb Hgit Hx Hig
                  | d es name entry f Hin Hent Hsub]; subst;
    destruct (entries_ok_In _ _ _ Hok Hin) as [Hname Hentry];
    assert (In name (List.map fst entries)) as Hfst
      by (apply in_map_iff; by exists (name, entry)).
  - exists name, []. split; [exact Hfst|]. split; [by simpl; rewrite Hname|].
    by apply join_absolute.
  - destruct (collects_names _ _ _ _ _ _ _ Hsub Hentry) as (more & _ & Hmore & -> & _).
    exists name, more. split; [exact Hfst|]. split; [by simpl; rewrite Hname|].
    rewrite join_absolute, descend_absolute, <- app_assoc; try done.
    by rewrite forallb_snoc, Hbase, Hname.
Qed.

Lemma unique_names_Dir entries :
  unique_names (Dir entries)
  = bool_decide (NoDup (List.map fst entries)) && entries_unique entries.
Proof. reflexivity. Qed.

Lemma walkEntries_NoDup rootDir ig excludeDirs excludeFiles entries :
  Forall (fun e => forall base files,
    forallb name_ok base = true -> names_ok (snd e) = true -> unique_names (snd e) = true ->
    walkDirectory (snd e) (Path.absolute base) [] rootDir ig excludeDirs excludeFiles
    = Ok files ->
    NoDup files) entries ->
  forall base files,
    forallb name_ok base = true -> entries_ok entries = true ->
    NoDup (List.map fst entries) -> entries_unique entries = true ->
    walkEntries entries (Path.absolute base) [] rootDir ig excludeDirs excludeFiles
    = Ok files ->
    NoDup files.
Proof.
  induction 1 as [|[name entry] rest Hentry _ IH];
    intros base files Hbase Hok Hnames Huniq Hwalk.
  - injection Hwalk as <-. constructor.
  - rewrite walkEntries_cons_split in Hwalk.
    apply bind_Ok in Hwalk as (first & Hfirst & Hwalk).
    apply bind_Ok in Hwalk as (others & Hothers & [= <-]).
    pose proof Hok as Hok'. simpl in Hok'.
    apply andb_prop in Hok' as [[Hname Hsub]%andb_prop Hrest].
    simpl in Huniq. apply andb_prop in Huniq as [Hu Hurest].
    apply NoDup_cons in Hnames as [Hfresh Hnames]. simpl in Hfresh.
    apply NoDup_app. split; [|split].
    + simpl in Hfirst.
      repeat match type of Hfirst with
             | (if ?b then _ else _) = _ => destruct b
             end; try (injection Hfirst as <-; constructor).
      destruct (ig _) as [[|]|]; simpl in Hfirst;
        [injection Hfirst as <-; constructor| |discriminate].
      destruct (isDirectory entry).
      * apply bind_Ok in Hfirst as (inner & Hinner & [= <-]).
        rewrite join_absolute in Hinner by assumption.
        eapply (Hentry (base ++ [name])); eauto.
        by rewrite forallb_snoc, Hbase, Hname.
      * injection Hfirst as <-. apply NoDup_singleton.
    + intros file Hin1%list_elem_of_In Hin2%list_elem_of_In.
      rewrite <- walkDirectory_Dir in Hfirst, Hothers.
      apply (walkDirectory_collects _ _ _ _ _ _ _ _ Hfirst) in Hin1 as [[]|Hc1].
      apply (walkDirectory_collects _ _ _ _ _ _ _ _ Hothers) in Hin2 as [[]|Hc2].
      apply collects_head in Hc1 as (n1 & m1 & Hn1 & Hm1 & ->);
        [|exact Hbase|by simpl; rewrite Hname, Hsub].
      apply collects_head in Hc2 as (n2 & m2 & Hn2 & Hm2 & Heq); [|exact Hbase|exact Hrest].
      apply absolute_inj in Heq; [|by rewrite forallb_app, Hbase|by rewrite forallb_app, Hbase].
      apply app_inv_head in Heq. injection Heq as -> _.
      destruct Hn1 as [<-|[]]. apply Hfresh. by apply list_elem_of_In.
    + by eapply IH.
Qed.

Lemma walkDirectory_NoDup rootDir ig excludeDirs excludeFiles dir :
  forall base files,
    forallb name_ok base = true -> names_ok dir = true -> unique_names dir = true ->
    walkDirectory dir (Path.absolute base) [] rootDir ig excludeDirs excludeFiles = Ok files ->
    NoDup files.
Proof.
  induction dir as [|entries IH| | |] using node_ind; intros base files Hbase Hok Hu;
    try discriminate.
  rewrite walkDirectory_Dir. rewrite names_ok_Dir in Hok. rewrite unique_names_Dir in Hu.
  apply andb_prop in Hu as [Hnames%bool_decide_eq_true Hu].
  by apply walkEntries_NoDup.
Qed.

(** X6: when no directory lists a name twice, as on a real file system,
    the walk returns no file twice. *)
Theorem walk_returns_no_file_twice dir rootDir ig excludeDirs excludeFiles files :
  resolved rootDir = true -> names_ok dir = true -> unique_names dir = true ->
  walkDirectory dir rootDir [] rootDir ig excludeDirs excludeFiles = Ok files ->
  NoDup files.
Proof.
  intros (base & Hbase & ->)%resolved_inv Hok Hu Hwalk.
  by eapply walkDirectory_NoDup.
Qed.

Lemma no_file_twice_witness :
  resolved "/r" = true /\ names_ok caret_tree = true /\ unique_names caret_tree = true
  /\ NoDup ["/r/a^b.txt"; "/r/a/b.txt"].
Proof.
  repeat (split; [reflexivity|]).
  apply (walk_returns_no_file_twice caret_tree "/r" (ignore_nothing []) ∅ DEFAULT_LOCKFILES);
    reflexivity.
Defined.

(** ** More exclusions, fewer files *)

Lemma has_subseteq (small large : gset string) x :
  small ⊆ large -> has large x = false -> has small x = false.
Proof.
  unfold has. intros Hsub Hlarge. apply bool_decide_eq_false.
  apply bool_decide_eq_false in Hlarge. set_solver.
Qed.

Lemma walkEntries_monotone rootDir ig excludeDirs excludeFiles excludeDirs' excludeFiles'
    entries :
  excludeDirs ⊆ excludeDirs' -> excludeFiles ⊆ excludeFiles' ->
  Forall (fun e => forall dirPath files,
    walkDirectory (snd e) dirPath [] rootDir ig excludeDirs excludeFiles = Ok files ->
    exists files',
      walkDirectory (snd e) dirPath [] rootDir ig excludeDirs' excludeFiles' = Ok files'
      /\ sublist files' files) entries ->
  forall dirPath files,
    walkEntries entries dirPath [] rootDir ig excludeDirs excludeFiles = Ok files ->
    exists files',
      walkEntries entries dirPath [] rootDir ig excludeDirs' excludeFiles' = Ok files'
      /\ sublist files' files.
Proof.
  intros Hdirs Hfiles.
  induction 1 as [|[name entry] rest Hentry _ IH]; intros dirPath files Hwalk.
  - injection Hwalk as <-. by exists [].
  - rewrite walkEntries_cons_split in Hwalk.
    apply bind_Ok in Hwalk as (first & Hfirst & Hwalk).
    apply bind_Ok in Hwalk as (others & Hothers & [= <-]).
    destruct (IH _ _ Hothers) as (others' & Hothers' & Hsub).
    rewrite walkEntries_cons_split, Hothers'.
    assert (exists first',
      walkEntries [(name, entry)] dirPath [] rootDir ig excludeDirs' excludeFiles' = Ok first'
      /\ sublist first' first) as (first' & -> & Hsub').
    { simpl in *.
      destruct (String.eqb name "flatbrain"); [by exists []; split; [|apply sublist_nil_l]|].
      destruct (String.eqb name ".git"); [by exists []; split; [|apply sublist_nil_l]|].
      destruct (isDirectory entry && has excludeDirs' name) eqn:Hxd';
        [by exists []; split; [|apply sublist_nil_l]|].
      destruct (isFile entry && has excludeFiles' name) eqn:Hxf';
        [by exists []; split; [|apply sublist_nil_l]|].
      assert (isDirectory entry && has excludeDirs name = false) as Hxd.
      { destruct (isDirectory entry); [|reflexivity]. simpl in *.
        by eapply has_subseteq. }
      assert (isFile entry && has excludeFiles name = false) as Hxf.
      { destruct (isFile entry); [|reflexivity]. simpl in *.
        by eapply has_subseteq. }
      rewrite Hxd, Hxf in Hfirst.
      destruct (ig (Path.relative rootDir (Path.join dirPath name))) as [[|]|];
        simpl in *; [by exists []; split; [|apply sublist_nil_l]| |discriminate].
      destruct (isDirectory entry).
      - apply bind_Ok in Hfirst as (inner & Hinner & [= <-]).
        destruct (Hentry _ _ Hinner) as (inner' & -> & ?). by exists inner'.
      - injection Hfirst as <-. by eexists. }
    simpl. exists (first' ++ others'). split; [reflexivity|]. by apply sublist_app.
Qed.

Lemma walkDirectory_monotone rootDir ig excludeDirs excludeFiles excludeDirs' excludeFiles'
    dir :
  excludeDirs ⊆ excludeDirs' -> excludeFiles ⊆ excludeFiles' ->
  forall dirPath files,
    walkDirectory dir dirPath [] rootDir ig excludeDirs excludeFiles = Ok files ->
    exists files',
      walkDirectory dir dirPath [] rootDir ig excludeDirs' excludeFiles' = Ok files'
      /\ sublist files' files.
Proof.
  intros Hdirs Hfiles.
  induction dir as [|entries IH| | |] using node_ind; intros dirPath files; try discriminate.
  rewrite !walkDirectory_Dir. by apply walkEntries_monotone.
Qed.

(** X7: excluding more never adds a file and never makes the walk fail:
    when the walk succeeds with some sets of excluded names, it succeeds
    with larger sets too, and returns the files that are left, in the same
    order. *)
Theorem more_exclusions_leave_a_sublist
    dir rootDir ig excludeDirs excludeFiles excludeDirs' excludeFiles' files :
  excludeDirs ⊆ excludeDirs' -> excludeFiles ⊆ excludeFiles' ->
  walkDirectory dir rootDir [] rootDir ig excludeDirs excludeFiles = Ok files ->
  exists files',
    walkDirectory dir rootDir [] rootDir ig excludeDirs' excludeFiles' = Ok files'
    /\ sublist files' files.
Proof. intros Hdirs Hfiles. by apply walkDirectory_monotone. Qed.

Lemma more_exclusions_witness :
  (∅ : gset string) ⊆ {[ "src" ]}
  /\ DEFAULT_LOCKFILES ⊆ {[ "b.txt" ]} ∪ DEFAULT_LOCKFILES
  /\ exists files',
       walkDirectory two_files_tree "/r" [] "/r" (ignore_nothing []) {[ "src" ]}
         ({[ "b.txt" ]} ∪ DEFAULT_LOCKFILES)
       = Ok files'
       /\ sublist files' ["/r/src/a.js"; "/r/b.txt"].
Proof.
  split; [apply empty_subseteq|]. split; [apply union_subseteq_r|].
  apply (more_exclusions_leave_a_sublist two_files_tree "/r" (ignore_nothing [])
           ∅ DEFAULT_LOCKFILES {[ "src" ]} ({[ "b.txt" ]} ∪ DEFAULT_LOCKFILES)).
  - apply empty_subseteq.
  - apply union_subseteq_r.
  - reflexivity.
Defined.
